(** * The silicon-surface SOAP/GAP tutorial notebook

    A shallow embedding of the executable cells of
    [soap_gap_tutorial_si_surface.ipynb]: the slab builder, the
    molecular-dynamics driver cells, the trajectory database [db], the
    [teach_sparse] command lines and the energy comparison (RMSE) cells.

    Conventions.
    - A Python [float] / numpy [float64] is a primitive binary64 [float].
    - A Python exception is the name of its class; a cell either raises
      ([inl]) or yields a value ([inr]).
    - A notebook is run top to bottom; the first raising cell stops the run.
    - Library routines the notebook only calls (the lattice factory, the
      vacuum padding, the oracles) are parameters of the definitions that
      use them. *)

From Stdlib Require Import ZArith Floats Uint63 Lia Ascii String.
From stdpp Require Import base list gmap strings sorting.

Set Warnings "-inexact-float".

(** ** Python results *)

Module Py.

Definition exn : Type := string.

Definition result (A : Type) : Type := (exn + A)%type.

Definition raise {A : Type} (e : exn) : result A := inl e.

Definition ret {A : Type} (a : A) : result A := inr a.

Definition bind {A B : Type} (c : result A) (k : A → result B) : result B :=
  match c with
  | inl e => inl e
  | inr a => k a
  end.

(** Python's integers: a [number] is what the builtin [sum] can return on a
    numpy array, the [int] it started from or a [float64]. *)
Inductive number : Type :=
  | PyInt (z : Z)
  | NpFloat (f : float).

End Py.

Notation "'let!' x ':=' c 'in' k" := (Py.bind c (λ x, k))
  (at level 10, x name, c at level 100, k at level 200).

(** ** binary64 helpers *)

Module Float64.

(** The float64 nearest to a Python [int] (exact below 2^53, which covers
    every [len] the notebook divides by). *)
Definition of_Z (z : Z) : float :=
  if (z <? 0)%Z then PrimFloat.opp (PrimFloat.of_uint63 (Uint63.of_Z (- z)))
  else PrimFloat.of_uint63 (Uint63.of_Z z).

Definition to_float (x : Py.number) : float :=
  match x with
  | Py.PyInt z => of_Z z
  | Py.NpFloat f => f
  end.

Definition vec3 : Type := float * float * float.

Definition zcoord (p : vec3) : float := p.2.

End Float64.

(** ** The numpy and builtin operations the cells use on 1-d arrays *)

Module Numpy.
Import Py Float64.

Definition array : Type := list float.

(** [a / n] with [n] a Python int: elementwise IEEE division; a zero
    divisor gives inf or nan and a warning, not an exception. *)
Definition div_int (a : array) (n : Z) : array :=
  map (λ x, PrimFloat.div x (of_Z n)) a.

(** [a - b] for two arrays of the same length. *)
Definition sub (a b : array) : array := zip_with PrimFloat.sub a b.

(** [a ** 2]. *)
Definition square (a : array) : array := map (λ x, PrimFloat.mul x x) a.

(** The builtin [sum]: starts from the int [0] and adds the elements from
    left to right; on an empty array the int [0] itself comes back. *)
Definition py_add (acc : number) (x : float) : number :=
  NpFloat (PrimFloat.add (to_float acc) x).

Definition py_sum (a : array) : number := fold_left py_add a (PyInt 0).

(** [s / n] with [n] a Python int.  Python 2 semantics (the notebook's
    kernel): int / int floors and raises on a zero divisor; float64 / int
    is an IEEE division. *)
Definition div_len (s : number) (n : Z) : result number :=
  match s with
  | PyInt z => if (n =? 0)%Z then raise "ZeroDivisionError" else ret (PyInt (z / n))
  | NpFloat f => ret (NpFloat (PrimFloat.div f (of_Z n)))
  end.

(** [np.sqrt]. *)
Definition sqrt (s : number) : float := PrimFloat.sqrt (to_float s).

(** [a.min()]: no identity on an empty array.  The reduction keeps the
    accumulator [m] when [m < x] or [m] is nan, and takes [x] otherwise,
    so a nan propagates. *)
Definition min2 (m x : float) : float :=
  if PrimFloat.ltb m x || PrimFloat.is_nan m then m else x.

Definition min (a : array) : result float :=
  match a with
  | [] => raise "ValueError"
  | x :: xs => ret (fold_left min2 xs x)
  end.

End Numpy.

(** ** Configurations *)

Module Config.
Import Float64.

(** An [Atoms] object, as far as the notebook reads or writes it. *)
Record Atoms : Type := mkAtoms {
  numbers : list Z;                 (* atomic numbers (species) *)
  positions : list vec3;
  momenta : list vec3;
  cell : vec3 * vec3 * vec3;
  fixed : list bool;                (* the FixAtoms mask *)
  calc : option string;             (* attached calculator, by name *)
  energy : float                    (* the stored potential energy *)
}.

(** [len(atoms)]. *)
Definition len (a : Atoms) : Z := Z.of_nat (length (positions a)).

(** [Atoms.copy()]: a new object with copies of the arrays and of the
    constraint; the calculator is not carried over. *)
Definition copy (a : Atoms) : Atoms :=
  mkAtoms (numbers a) (positions a) (momenta a) (cell a) (fixed a) None (energy a).

(** [a.set_calculator(pot)]. *)
Definition set_calculator (name : string) (a : Atoms) : Atoms :=
  mkAtoms (numbers a) (positions a) (momenta a) (cell a) (fixed a) (Some name) (energy a).

(** [a.get_potential_energy()] stores what the calculator returned. *)
Definition store_energy (e : float) (a : Atoms) : Atoms :=
  mkAtoms (numbers a) (positions a) (momenta a) (cell a) (fixed a) (calc a) e.

End Config.

(** ** Evaluation / comparison cells *)

Module Evaluation.
Import Py Float64 Config.

Section WithOracle.

(** The fitted potential, by the name of its variable and by the energy it
    returns for the configuration it is attached to. *)
Variable name : string.
Variable gap : Atoms → float.

(** [qm_energies = [dba.energy for dba in db]]. *)
Definition qm_energies (db : list Atoms) : list float := map energy db.

(** [gap2b_energies]: the loop over [db],
    [a = dba.copy(); a.set_calculator(gap); es.append(a.get_potential_energy())]. *)
Definition predict (dba : Atoms) : float := gap (set_calculator name (copy dba)).

Definition gap_energies (db : list Atoms) : list float := map predict db.

(** [Natoms = len(db[0])]. *)
Definition Natoms (db : list Atoms) : result Z :=
  match db !! 0%nat with
  | None => raise "IndexError"
  | Some first => ret (len first)
  end.

(** The two arrays the scatter plot and the RMSE are computed from. *)
Definition normalised (db : list Atoms) : result (list float * list float) :=
  let! n := Natoms db in
  ret (Numpy.div_int (qm_energies db) n, Numpy.div_int (gap_energies db) n).

(** [np.sqrt(sum((np.array(qm)/Natoms - np.array(gap)/Natoms)**2)/len(gap))]. *)
Definition rmse (qm gp : list float) (n : Z) : result float :=
  let! s := Numpy.div_len
              (Numpy.py_sum (Numpy.square (Numpy.sub (Numpy.div_int qm n) (Numpy.div_int gp n))))
              (Z.of_nat (length gp)) in
  ret (Numpy.sqrt s).

(** The cells from the energy loop to the RMSE, run in order. *)
Definition evaluation (db : list Atoms) : result float :=
  let qm := qm_energies db in
  let gp := gap_energies db in
  let! n := Natoms db in
  rmse qm gp n.

End WithOracle.

(** The comparison in the words of the specification: per-atom energies,
    then the root of the mean of the squared errors. *)
Definition per_atom (count : Z) (e : float) : float := PrimFloat.div e (of_Z count).

Definition squared_errors (ref pred : list float) : list float :=
  zip_with (λ r p, PrimFloat.mul (PrimFloat.sub r p) (PrimFloat.sub r p)) ref pred.

Definition mean (xs : list float) : float :=
  PrimFloat.div (fold_left PrimFloat.add xs 0%float) (of_Z (Z.of_nat (length xs))).

Definition rms_error (ref pred : list float) : float :=
  PrimFloat.sqrt (mean (squared_errors ref pred)).

Definition per_atom_rmse (count : Z) (ref pred : list float) : float :=
  rms_error (map (per_atom count) ref) (map (per_atom count) pred).

(** The per-atom energy of a snapshot, by its own atom count. *)
Definition own_per_atom (e : Atoms → float) (s : Atoms) : float :=
  PrimFloat.div (e s) (of_Z (len s)).

(** A snapshot of [natoms] silicon atoms with stored energy [e], for the
    examples. *)
Definition snapshot (natoms : nat) (e : float) : Atoms :=
  mkAtoms (replicate natoms 14%Z) (replicate natoms (0, 0, 0)%float)
          (replicate natoms (0, 0, 0)%float)
          ((1, 0, 0), (0, 1, 0), (0, 0, 1))%float [] None e.

End Evaluation.

(** ** The trajectory database and the objects it shares a heap with *)

Module Store.
Import Py Float64 Config.

(** Python objects live in a heap; a variable or a list cell holds a
    reference.  [atoms] is the notebook's global configuration, [db] the
    list the collector appends to. *)
Definition ref : Type := positive.

Record World : Type := mkWorld {
  heap : gmap ref Atoms;
  atoms : ref;
  db : list ref
}.

(** Allocation of a new object. *)
Definition new_ref (h : gmap ref Atoms) : ref := fresh (dom h).

(** [db = []] with one configuration bound to [atoms]. *)
Definition init (a0 : Atoms) : World := mkWorld {[ 1%positive := a0 ]} 1%positive [].

(** [def collect_data(): db.append(atoms.copy())]. *)
Definition collect_data (w : World) : World :=
  match heap w !! atoms w with
  | Some a =>
      let l := new_ref (heap w) in
      mkWorld (<[ l := copy a ]> (heap w)) (atoms w) (db w ++ [l])
  | None => w
  end.

(** An update in place of the object [atoms] refers to: a dynamics step,
    or a callback that makes the calculator store its results there. *)
Definition md_step (integrate : Atoms → Atoms) (w : World) : World :=
  mkWorld (alter integrate (atoms w) (heap w)) (atoms w) (db w).

(** The body of the evaluation loop, for one [dba]:
    [a = dba.copy(); a.set_calculator(gap); es.append(a.get_potential_energy())]. *)
Definition eval_one (name : string) (gap : Atoms → float)
    (st : gmap ref Atoms * list float) (dba : ref) : gmap ref Atoms * list float :=
  match st.1 !! dba with
  | Some s =>
      let a := set_calculator name (copy s) in
      let e := gap a in
      (<[ new_ref st.1 := store_energy e a ]> st.1, st.2 ++ [e])
  | None => st
  end.

(** [for dba in db: ...]: returns the predicted energies. *)
Definition eval_pass (name : string) (gap : Atoms → float) (w : World) : World * list float :=
  let r := fold_left (eval_one name gap) (db w) (heap w, []) in
  (mkWorld r.1 (atoms w) (db w), r.2).

(** [optatoms = db[0].copy(); ...; opt.run()]: the optimiser moves a copy
    (on an empty [db] the cell raises at [db[0]] and the heap stays). *)
Definition relax (optimise : Atoms → Atoms) (w : World) : World :=
  match db w !! 0%nat with
  | Some l =>
      match heap w !! l with
      | Some s => mkWorld (<[ new_ref (heap w) := optimise (copy s) ]> (heap w)) (atoms w) (db w)
      | None => w
      end
  | None => w
  end.

(** What the notebook does to the heap after [db = []]. *)
Inductive op : Type :=
  | Step (integrate : Atoms → Atoms)
  | Collect
  | EvalPass (name : string) (gap : Atoms → float)
  | Relax (optimise : Atoms → Atoms).

Definition exec (w : World) (o : op) : World :=
  match o with
  | Step f => md_step f w
  | Collect => collect_data w
  | EvalPass name gap => (eval_pass name gap w).1
  | Relax f => relax f w
  end.

Definition run (ops : list op) (w : World) : World := fold_left exec ops w.

(** Indexed read access: [db[i]]. *)
Definition read (w : World) (i : nat) : option Atoms :=
  l ← db w !! i; heap w !! l.

(** The stored snapshots, in order. *)
Definition snapshots (w : World) : list (option Atoms) := map (λ l, heap w !! l) (db w).

(** The variant without the copy, [db.append(atoms)], for comparison. *)
Definition collect_alias (w : World) : World :=
  mkWorld (heap w) (atoms w) (db w ++ [atoms w]).

(** Reachable worlds keep the live configuration and every snapshot
    allocated, and the live configuration is no snapshot. *)
Record wf (w : World) : Prop := mkWf {
  wf_atoms : is_Some (heap w !! atoms w);
  wf_db : Forall (λ l, is_Some (heap w !! l) ∧ l ≠ atoms w) (db w)
}.

(** [w'] extends [w]: the same live reference, a list that only grew at
    its end, and untouched objects behind the old entries. *)
Record extends (w w' : World) : Prop := mkExt {
  ext_atoms : atoms w' = atoms w;
  ext_db : db w `prefix_of` db w';
  ext_heap : Forall (λ l, heap w' !! l = heap w !! l) (db w)
}.

(** A configuration and an update for the examples: one atom at the
    origin, shifted by one along x. *)
Definition at_origin : Atoms :=
  mkAtoms [14%Z] [(0, 0, 0)%float] [(0, 0, 0)%float]
          ((1, 0, 0), (0, 1, 0), (0, 0, 1))%float [false] None 0%float.

Definition moved (a : Atoms) : Atoms :=
  mkAtoms (numbers a) (map (λ p, (p.1.1 + 1, p.1.2, p.2)%float) (positions a))
          (momenta a) (cell a) (fixed a) (calc a) (energy a).

End Store.

(** ** The molecular-dynamics driver cells *)

Module Pipeline.
Import Py.

(** The statements of the driver cells, in the order the notebook runs
    them.  A commented-out line is no statement. *)
Inductive stmt : Type :=
  | SetCalculator (pot : string)
  | MaxwellBoltzmannDistribution (temp : float)
  | Langevin (timestep temp friction : float)
  | Attach (callback : string) (interval : nat)
  | NewDb
  | Run (steps : nat).

(** Where the velocities of [atoms] come from: the temperature of the last
    Maxwell-Boltzmann draw, and the number of dynamics steps integrated
    since. *)
Record velocities : Type := mkVel {
  drawn_at : option float;
  evolved : nat
}.

Record integrator : Type := mkIntegrator {
  dt : float;
  target : float;
  friction : float;
  nsteps : nat;
  observers : list (string * nat)
}.

(** What a call of [dynamics.run] starts from. *)
Record run_record : Type := mkRun {
  oracle : option string;
  thermostat : float;
  start : velocities;
  steps : nat
}.

Record state : Type := mkState {
  calculator : option string;
  vel : velocities;
  dynamics : option integrator;
  runs : list run_record
}.

Definition fresh_kernel : state := mkState None (mkVel None 0) None [].

Definition exec (st : state) (s : stmt) : result state :=
  match s with
  | SetCalculator pot =>
      ret (mkState (Some pot) (vel st) (dynamics st) (runs st))
  | MaxwellBoltzmannDistribution temp =>
      ret (mkState (calculator st) (mkVel (Some temp) 0) (dynamics st) (runs st))
  | Langevin h temp fr =>
      ret (mkState (calculator st) (vel st) (Some (mkIntegrator h temp fr 0 [])) (runs st))
  | Attach f k =>
      match dynamics st with
      | None => raise "NameError"
      | Some d =>
          ret (mkState (calculator st) (vel st)
                 (Some (mkIntegrator (dt d) (target d) (friction d) (nsteps d) (observers d ++ [(f, k)])))
                 (runs st))
      end
  | NewDb => ret st
  | Run n =>
      match dynamics st with
      | None => raise "NameError"
      | Some d =>
          ret (mkState (calculator st)
                 (mkVel (drawn_at (vel st)) (evolved (vel st) + n))
                 (Some (mkIntegrator (dt d) (target d) (friction d) (nsteps d + n) (observers d)))
                 (runs st ++ [mkRun (calculator st) (target d) (vel st) n]))
      end
  end.

Fixpoint exec_all (st : state) (prog : list stmt) : result state :=
  match prog with
  | [] => ret st
  | s :: rest => let! st' := exec st s in exec_all st' rest
  end.

Section Units.

(** [units.kB] and [units.fs] of the toolkit. *)
Variables kB fs : float.

(** [T = 1000.0] and [timestep = 1.0 * units.fs]. *)
Definition T : float := 1000.0%float.

Definition timestep : float := (1.0 * fs)%float.

(** The driver cells.  The second setup cell has its
    [MaxwellBoltzmannDistribution] line commented out. *)
Definition notebook : list stmt :=
  [ SetCalculator "qm_pot";
    MaxwellBoltzmannDistribution (2.0 * T * kB)%float;
    Langevin timestep (T * kB)%float 0.002%float;
    Attach "print_status" 10;
    Attach "print_energy" 1;
    Run 100;
    NewDb;
    Attach "collect_data" 10;
    Run 500;
    SetCalculator "gap_soap";
    Langevin timestep (T * kB)%float 0.002%float;
    Attach "print_status" 10;
    Attach "print_energy" 10;
    Run 100 ].

(** The runs of the pipeline, in order. *)
Definition dynamics_runs : list run_record :=
  match exec_all fresh_kernel notebook with
  | inr st => runs st
  | inl _ => []
  end.

(** A run whose initial velocities are a fresh Maxwell-Boltzmann draw at
    twice the thermostat's target temperature. *)
Definition thermalised (r : run_record) : Prop :=
  thermostat r = (T * kB)%float ∧ start r = mkVel (Some (2.0 * T * kB)%float) 0.

(** The three calls of [dynamics.run]. *)
Definition first_run : run_record :=
  mkRun (Some "qm_pot") (T * kB)%float (mkVel (Some (2.0 * T * kB)%float) 0) 100.

Definition collection_run : run_record :=
  mkRun (Some "qm_pot") (T * kB)%float (mkVel (Some (2.0 * T * kB)%float) 100) 500.

Definition validation_run : run_record :=
  mkRun (Some "gap_soap") (T * kB)%float (mkVel (Some (2.0 * T * kB)%float) 600) 100.

End Units.

End Pipeline.

(** ** The structure builder *)

Module StructureBuilder.
Import Py Float64 Config.

Definition cell_t : Type := vec3 * vec3 * vec3.

Section Builder.

(** The toolkit's lattice factory, [Atoms(Diamond(symbol,
    latticeconstant=a, size=size))], and what [add_vacuum] does to the
    cell (it rescales no position). *)
Variable Diamond : string → float → Z * Z * Z → result Atoms.
Variable stretch_cell : cell_t → float → cell_t.

(** [atoms.set_constraint(FixAtoms(mask=fixed_mask))]. *)
Definition set_constraint (mask : list bool) (a : Atoms) : Atoms :=
  mkAtoms (numbers a) (positions a) (momenta a) (cell a) mask (calc a) (energy a).

(** [add_vacuum(atoms, vacuum)]. *)
Definition add_vacuum (a : Atoms) (vacuum : float) : Atoms :=
  mkAtoms (numbers a) (positions a) (momenta a) (stretch_cell (cell a) vacuum)
          (fixed a) (calc a) (energy a).

(** [abs(z - bottom) < 2.0]. *)
Definition in_bottom_layer (bottom z : float) : bool :=
  PrimFloat.ltb (PrimFloat.abs (PrimFloat.sub z bottom)) 2.0%float.

Definition build_slab (size : Z * Z * Z) (vacuum : float) : result Atoms :=
  let! atoms := Diamond "Si" 5.44%float size in
  let z := map zcoord (positions atoms) in
  let! bottom := Numpy.min z in
  let fixed_mask := map (in_bottom_layer bottom) z in
  let atoms := set_constraint fixed_mask atoms in
  ret (add_vacuum atoms vacuum).

End Builder.

End StructureBuilder.

(** ** The toolkit routines the builder is run against *)

Module Toolkit.
Import Py Float64 Config.

Definition dot (u v : vec3) : float :=
  (u.1.1 * v.1.1 + u.1.2 * v.1.2 + u.2 * v.2)%float.

Definition cross (u v : vec3) : vec3 :=
  ((u.1.2 * v.2 - u.2 * v.1.2)%float,
   (u.2 * v.1.1 - u.1.1 * v.2)%float,
   (u.1.1 * v.1.2 - u.1.2 * v.1.1)%float).

Definition scale (k : float) (u : vec3) : vec3 :=
  ((u.1.1 * k)%float, (u.1.2 * k)%float, (u.2 * k)%float).

(** Modelled from the spec: the cell is "extended along one axis by the
    vacuum amount".  The toolkit's [add_vacuum] is not in the repository;
    this is its cell update: the third cell vector is lengthened so that
    the cell gains [vacuum] along the normal of the first two. *)
Definition stretch_cell (c : vec3 * vec3 * vec3) (vacuum : float) : vec3 * vec3 * vec3 :=
  let normal := cross c.1.1 c.1.2 in
  let costheta := (dot normal c.2 / PrimFloat.sqrt (dot normal normal * dot c.2 c.2))%float in
  let length := PrimFloat.sqrt (dot c.2 c.2) in
  let newlength := (length + vacuum / costheta)%float in
  (c.1.1, c.1.2, scale (newlength / length)%float c.2).

(** The eight sites of the conventional diamond-cubic cell, in units of
    the lattice constant. *)
Definition diamond_sites : list vec3 :=
  [ (0, 0, 0); (0.25, 0.25, 0.25); (0, 0.5, 0.5); (0.25, 0.75, 0.75);
    (0.5, 0, 0.5); (0.75, 0.25, 0.75); (0.5, 0.5, 0); (0.75, 0.75, 0.25) ]%float.

Definition atomic_number (symbol : string) : Z :=
  if String.eqb symbol "Si" then 14 else 0.

Definition range (n : Z) : list Z := map Z.of_nat (seq 0 (Z.to_nat n)).

Definition site (a : float) (i j k : Z) (s : vec3) : vec3 :=
  (a * (of_Z i + s.1.1), a * (of_Z j + s.1.2), a * (of_Z k + s.2))%float.

(** Modelled from the spec: "atoms placed on a diamond-cubic lattice of the
    chosen species", the cell replicated [size] times along the three
    axes.  The toolkit's factory is not in the repository; a replication
    count that is not positive makes it raise. *)
Definition Diamond (symbol : string) (a : float) (size : Z * Z * Z) : result Atoms :=
  let '(nx, ny, nz) := size in
  if ((nx <=? 0) || (ny <=? 0) || (nz <=? 0))%Z then raise "ValueError"
  else
    let pos :=
      i ← range nx; j ← range ny; k ← range nz; map (site a i j k) diamond_sites in
    ret (mkAtoms (map (λ _, atomic_number symbol) pos) pos
                 (map (λ _, (0, 0, 0)%float) pos)
                 ((a * of_Z nx, 0, 0), (0, a * of_Z ny, 0), (0, 0, a * of_Z nz))%float
                 [] None 0%float).

End Toolkit.

(** ** The tutorial's slab *)

Module TutorialSlab.
Import Py Float64 Config StructureBuilder.

(** [atoms = build_slab()]: the defaults, [size=(1,2,2)] and [vacuum=10.]. *)
Definition built : result Atoms :=
  build_slab Toolkit.Diamond Toolkit.stretch_cell (1, 2, 2)%Z 10.0%float.

Definition slab : Atoms :=
  Eval vm_compute in
    match built with
    | inr a => a
    | inl _ => mkAtoms [] [] [] ((0, 0, 0), (0, 0, 0), (0, 0, 0))%float [] None 0%float
    end.

End TutorialSlab.

(** ** The command lines of the potential fitter *)

Module Fitter.
Local Open Scope char_scope.

(** A [!command] cell is its physical lines; a line ending in a backslash
    continues on the next one. *)
Definition cell : Type := list string.

Definition chars (s : string) : list ascii := String.list_ascii_of_string s.

Definition text (cs : list ascii) : string := String.string_of_list_ascii cs.

Definition is_space (c : ascii) : bool :=
  Ascii.eqb c " " || Ascii.eqb c "009" || Ascii.eqb c "010".

(** The shell's line continuation: a trailing backslash and the line break
    disappear. *)
Fixpoint drop_continuation (cs : list ascii) : list ascii :=
  match cs with
  | [] => []
  | [c] => if Ascii.eqb c "\" then [] else [c]
  | c :: rest => c :: drop_continuation rest
  end.

Definition command_line (c : cell) : list ascii :=
  concat (map (λ l, drop_continuation (chars l)) c).

Definition flush (cur : list ascii) : list string :=
  match cur with
  | [] => []
  | _ :: _ => [text cur]
  end.

(** The words of the command line as the fitter's argument parser groups
    them: blanks separate words, except inside braces. *)
Fixpoint words (depth : nat) (cur : list ascii) (cs : list ascii) : list string :=
  match cs with
  | [] => flush cur
  | c :: rest =>
      if is_space c && Nat.eqb depth 0 then flush cur ++ words 0 [] rest
      else if Ascii.eqb c "{" then words (S depth) (cur ++ [c]) rest
      else if Ascii.eqb c "}" then words (Nat.pred depth) (cur ++ [c]) rest
      else words depth (cur ++ [c]) rest
  end.

(** What the shell keeps for itself: a redirection or a pipe ends the
    fitter's arguments. *)
Definition shell_operator (w : string) : bool :=
  String.eqb w "|" || String.eqb w "2>&1".

Fixpoint arguments (ws : list string) : list string :=
  match ws with
  | [] => []
  | w :: rest => if shell_operator w then [] else w :: arguments rest
  end.

(** [key=value]. *)
Fixpoint key_value (key : list ascii) (cs : list ascii) : option (string * string) :=
  match cs with
  | [] => None
  | c :: rest =>
      if Ascii.eqb c "=" then Some (text key, text rest)
      else key_value (key ++ [c]) rest
  end.

Record invocation : Type := mkInvocation {
  program : string;
  params : list (string * string);
  flags : list string
}.

Definition parse (c : cell) : option invocation :=
  match words 0 [] (command_line c) with
  | [] => None
  | prog :: ws =>
      let args := arguments ws in
      Some (mkInvocation prog
              (omap (λ w, key_value [] (chars w)) args)
              (filter (λ w, key_value [] (chars w) = None) args))
  end.

Fixpoint assoc (k : string) (kvs : list (string * string)) : option string :=
  match kvs with
  | [] => None
  | (k', v) :: rest => if String.eqb k k' then Some v else assoc k rest
  end.

Definition param (k : string) (i : invocation) : option string := assoc k (params i).

Local Open Scope string_scope.

(** The [!teach_sparse] cells, as they stand in the notebook (the cell that
    is one comment line runs nothing and is left out). *)
Definition help_cell : cell := [ "!teach_sparse --help" ].

Definition fit_2b : cell :=
  [ "!teach_sparse at_file=tmp.xyz \";
    "gap={distance_Nb order=2 \";
    "                 cutoff=5.0 \";
    "                 covariance_type=ARD_SE \";
    "                 theta_uniform=1.0 \";
    "                 n_sparse=15 \";
    "                 delta=1.0} \";
    "e0=-29.716948405885105 \";
    "default_sigma={0.01 0.5 0.0 0.0} \";
    "do_copy_at_file=F sparse_separate_file=F \";
    "gp_file=gap_2b.xml" ].

Definition fit_3b : cell :=
  [ "!teach_sparse at_file=tmp.xyz \";
    "gap={distance_Nb order=2 \";
    "                 cutoff=5.0 \";
    "                 covariance_type=ARD_SE \";
    "                 theta_uniform=1.0 \";
    "                 n_sparse=15 \";
    "                 delta=1.0:\";
    "     distance_Nb order=3 \";
    "                 cutoff=4.0 \";
    "                 covariance_type=ARD_SE \";
    "                 theta_uniform=1.0 \";
    "                 n_sparse=50 \";
    "                 delta=0.004} \";
    "e0=-29.716948405885105 \";
    "default_sigma={0.005 0.5 0.0 0.0} \";
    "do_copy_at_file=F sparse_separate_file=F \";
    "gp_file=gap_3b.xml" ].

Definition fit_2b3bsoap : cell :=
  [ "!teach_sparse at_file=tmp.xyz \";
    "gap={distance_Nb order=2 \";
    "                 cutoff=5.0 \";
    "                 covariance_type=ARD_SE \";
    "                 theta_uniform=1.0 \";
    "                 n_sparse=15 \";
    "                 delta=1.0:\";
    "     distance_Nb order=3 \";
    "                 cutoff=4.0 \";
    "                 covariance_type=ARD_SE \";
    "                 theta_uniform=1.0 \";
    "                 n_sparse=50 \";
    "                 delta=0.004:\";
    "     soap cutoff=4.0 \";
    "          covariance_type=dot_product \";
    "          zeta=2 \";
    "          delta=0.016 \";
    "          atom_sigma=0.7 \";
    "          l_max=6 \";
    "          n_max=6 \";
    "          n_sparse=200 \";
    "          sparse_method=cur_points} \";
    "e0=-29.716948405885105 \";
    "default_sigma={0.001 0.5 0.0 0.0} \";
    "do_copy_at_file=F sparse_separate_file=F \";
    "gp_file=gap_2b3bsoap.xml 2>&1 | grep -v FoX" ].

(** The shell cells in notebook order.  [E0] is the isolated-atom energy the
    kernel holds when they run; no cell refers to it. *)
Definition shell_cells (E0 : float) : list cell :=
  [ help_cell; fit_2b; fit_3b; fit_2b3bsoap ].

Definition invocations (E0 : float) : list invocation := omap parse (shell_cells E0).

(** A fit is an invocation that is given a training file. *)
Definition is_fit (i : invocation) : bool :=
  String.eqb (program i) "!teach_sparse" && bool_decide (is_Some (param "at_file" i)).

Definition fits (E0 : float) : list invocation := filter (λ i, is_fit i = true) (invocations E0).

End Fitter.

(** ** The dynamics engine and its observers *)

Module Dynamics.

Record observer : Type := mkObserver {
  callback : string;
  interval : nat
}.

Record engine (C : Type) : Type := mkEngine {
  nsteps : nat;
  observers : list observer;
  config : C
}.

Arguments mkEngine {C} _ _ _.
Arguments nsteps {C} _.
Arguments observers {C} _.
Arguments config {C} _.

(** One invocation of a callback: the registration slot it was attached
    at, the step count, and the configuration it was shown. *)
Record event (C : Type) : Type := mkEvent {
  slot : nat;
  who : string;
  at_step : nat;
  seen : C
}.

Arguments mkEvent {C} _ _ _ _.
Arguments slot {C} _.
Arguments who {C} _.
Arguments at_step {C} _.
Arguments seen {C} _.

Section Engine.

Context {C : Type}.

(** Steps (1) and (2) of the engine: the oracle's forces and the
    integrator's update of positions and velocities. *)
Variable integrate : C → C.

(** Modelled from the spec: the toolkit's integrator classes are not in the
    repository.  A callback is due when its "configured interval divides
    the current step count". *)
Definition due (n : nat) (o : observer) : bool := Nat.eqb (n mod interval o) 0.

(** Modelled from the spec: [dynamics.attach(f, interval=k)] registers a
    callback after the ones already registered. *)
Definition attach (f : string) (k : nat) (e : engine C) : engine C :=
  mkEngine (nsteps e) (observers e ++ [mkObserver f k]) (config e).

(** Modelled from the spec: step (3), "invoke any registered periodic
    callbacks whose configured interval divides the current step count",
    going through the registrations from slot [i] on. *)
Fixpoint call_observers (i n : nat) (c : C) (obs : list observer) : list (event C) :=
  match obs with
  | [] => []
  | o :: rest =>
      (if due n o then [mkEvent i (callback o) n c] else [])
        ++ call_observers (S i) n c rest
  end.

(** Modelled from the spec: one step of the state machine of section 4.3,
    update first, callbacks after. *)
Definition step (e : engine C) : engine C * list (event C) :=
  let c := integrate (config e) in
  let n := S (nsteps e) in
  (mkEngine n (observers e) c, call_observers 0 n c (observers e)).

(** Modelled from the spec: [dynamics.run(steps)], until "step count
    reaches the requested run length". *)
Fixpoint run (steps : nat) (e : engine C) : engine C * list (event C) :=
  match steps with
  | O => (e, [])
  | S k =>
      let r1 := step e in
      let r2 := run k r1.1 in
      (r2.1, r1.2 ++ r2.2)
  end.

(** How often the callback in slot [i] was invoked at step [n]. *)
Definition calls (i n : nat) (tr : list (event C)) : nat :=
  length (filter (λ ev, slot ev = i ∧ at_step ev = n) tr).

(** Earlier in time: an earlier step, or the same step and an earlier
    registration. *)
Definition precedes (e1 e2 : event C) : Prop :=
  at_step e1 < at_step e2 ∨ (at_step e1 = at_step e2 ∧ slot e1 < slot e2).

End Engine.

(** The first engine of the notebook, with a step counter for a
    configuration: status every 10 steps, energy every step. *)
Definition tutorial_engine : engine nat :=
  attach "print_energy" 1 (attach "print_status" 10 (mkEngine 0 [] 0)).

End Dynamics.

(** ** The descriptor evaluator *)

Module Descriptor.
Import Py Float64.

Definition sq (x : float) : float := PrimFloat.mul x x.

(** Modelled from the spec: the "interatomic distance" of the pairwise
    family, as the Euclidean distance of two positions (periodic images
    are left out). *)
Definition distance (p q : vec3) : float :=
  PrimFloat.sqrt (sq (p.1.1 - q.1.1) + sq (p.1.2 - q.1.2) + sq (p.2 - q.2))%float.

(** A descriptor specification, [distance_Nb order=N cutoff=c]. *)
Record spec : Type := mkSpec {
  family : string;
  order : nat;
  cutoff : float
}.

(** [Descriptor("distance_Nb order=2 cutoff=4.0 n_Z=1 Zs={14}")]. *)
Definition pairwise : spec := mkSpec "distance_Nb" 2 4.0%float.

(** Modelled from the spec: the value for a tuple of [N] atoms, "one
    scalar (order=2) or one small vector (order=3: triangle side
    lengths)": the distances of the pairs [(i, j)], [i < j < N]. *)
Definition components (N : nat) : list (nat * nat) :=
  i ← seq 0 N; j ← seq 0 N; if (i <? j)%nat then [(i, j)] else [].

Definition nan : float := (0 / 0)%float.

Definition descriptor (N : nat) (tuple : list vec3) : list float :=
  map (λ ij, match tuple !! ij.1, tuple !! ij.2 with
             | Some p, Some q => distance p q
             | _, _ => nan
             end) (components N).

(** The component that holds the distance of atoms [i] and [j]. *)
Definition component_of (N i j : nat) : nat :=
  default 0%nat (fst <$> list_find (λ c, c = (Nat.min i j, Nat.max i j)) (components N)).

(** Modelled from the spec: the family "declares a fixed number of index
    permutations under which its value is invariant", one for each way of
    reordering the atoms of a tuple: component [(i, j)] goes where the
    distance of the reordered atoms [i] and [j] is held. *)
Definition induced (N : nat) (sigma : list nat) : list nat :=
  map (λ ij, component_of N (default 0%nat (sigma !! ij.1)) (default 0%nat (sigma !! ij.2)))
      (components N).

Definition atom_orders (N : nat) : list (list nat) := permutations (seq 0 N).

(** [desc.permutations()] and [desc.n_perm]. *)
Definition index_permutations (d : spec) : list (list nat) :=
  map (induced (order d)) (atom_orders (order d)).

Definition n_perm (d : spec) : nat := length (index_permutations d).

(** A list reordered by a list of indices. *)
Definition permute {A : Type} (pi : list nat) (v : list A) : list A :=
  omap (λ k, v !! k) pi.

End Descriptor.

(** ** The evaluation cells on the heap, and what a run leaves behind *)

Module Cells.
Import Py Float64 Config Store.

(** [db], dereferenced: the stored configurations in order. *)
Definition db_values (w : World) : list Atoms := omap (λ l, heap w !! l) (db w).

(** [qm_energies = [dba.energy for dba in db]]. *)
Definition qm_energies (w : World) : list float := map energy (db_values w).

(** [Natoms = len(db[0])]. *)
Definition Natoms (w : World) : result Z :=
  match read w 0 with
  | Some first => ret (len first)
  | None => raise "IndexError"
  end.

(** The cells from the energy loop to the RMSE, run in order on the heap:
    the list comprehension, the loop (which allocates), [Natoms], the
    RMSE expression. *)
Definition evaluation_cells (name : string) (gap : Atoms → float) (w : World)
    : World * result float :=
  let qm := qm_energies w in
  let r := eval_pass name gap w in
  (r.1, let! n := Natoms r.1 in Evaluation.rmse qm r.2 n).

(** The configuration [atoms] refers to after a list of operations, given
    the one before: what the steps made of it. *)
Fixpoint live_after (ops : list op) (a : Atoms) : Atoms :=
  match ops with
  | [] => a
  | Step f :: rest => live_after rest (f a)
  | _ :: rest => live_after rest a
  end.

(** The copies a list of operations appends, given the configuration
    [atoms] refers to before. *)
Fixpoint collected (ops : list op) (a : Atoms) : list Atoms :=
  match ops with
  | [] => []
  | Step f :: rest => collected rest (f a)
  | Collect :: rest => copy a :: collected rest a
  | _ :: rest => collected rest a
  end.

Definition is_collect (o : op) : bool :=
  match o with
  | Collect => true
  | _ => false
  end.

(** A step that neither adds nor removes an atom. *)
Definition keeps_len (o : op) : Prop :=
  match o with
  | Step f => ∀ a, len (f a) = len a
  | _ => True
  end.

End Cells.

(** ** The descriptors a fit is given *)

Module FitterSpecs.
Import Fitter.
Local Open Scope char_scope.

(** The value of [gap={...}] without its braces. *)
Definition unbrace (cs : list ascii) : list ascii :=
  match cs with
  | c :: rest =>
      if Ascii.eqb c "{" then
        match reverse rest with
        | d :: tser => if Ascii.eqb d "}" then reverse tser else cs
        | [] => cs
        end
      else cs
  | [] => cs
  end.

(** Descriptors are joined with a colon. *)
Fixpoint split_colon (cur : list ascii) (cs : list ascii) : list (list ascii) :=
  match cs with
  | [] => [cur]
  | c :: rest =>
      if Ascii.eqb c ":" then cur :: split_colon [] rest
      else split_colon (cur ++ [c]) rest
  end.

(** The descriptors of an invocation, each as its words: the family, then
    its [key=value] settings. *)
Definition descriptors (i : invocation) : list (list string) :=
  match param "gap" i with
  | Some v => map (words 0 []) (split_colon [] (unbrace (chars v)))
  | None => []
  end.

End FitterSpecs.

(** ** The dimer curves *)

Module Dimers.
Import Py Float64 Config Store.

(** [aseAtoms("2Si", positions=[[0,0,0], [x,0,0]])]. *)
Definition dimer (x : float) : Atoms :=
  mkAtoms [14; 14]%Z [(0, 0, 0); (x, 0, 0)]%float [(0, 0, 0); (0, 0, 0)]%float
          ((0, 0, 0), (0, 0, 0), (0, 0, 0))%float [] None 0%float.

(** [dimers = [aseAtoms(...) for x in xs]], with [xs] the separations
    [np.linspace(1.6, 6, 100)]: every element is a new object. *)
Definition build_one (st : gmap ref Atoms * list ref) (x : float) : gmap ref Atoms * list ref :=
  (<[ new_ref st.1 := dimer x ]> st.1, st.2 ++ [new_ref st.1]).

Definition build (xs : list float) (h : gmap ref Atoms) : gmap ref Atoms * list ref :=
  fold_left build_one xs (h, []).

(** The body of the curve loop, for one [dim]:
    [dim.set_calculator(gap); dimer_curve.append(dim.get_potential_energy())].
    The dimer itself is updated, no copy is made. *)
Definition curve_one (name : string) (gap : Atoms → float)
    (st : gmap ref Atoms * list float) (dim : ref) : gmap ref Atoms * list float :=
  match st.1 !! dim with
  | Some a =>
      let a' := set_calculator name a in
      let e := gap a' in
      (<[ dim := store_energy e a' ]> st.1, st.2 ++ [e])
  | None => st
  end.

(** What the loop body leaves of a dimer. *)
Definition evaluated (name : string) (gap : Atoms → float) (a : Atoms) : Atoms :=
  store_energy (gap (set_calculator name a)) (set_calculator name a).

(** [dimer_curve = []; for dim in dimers: ...]. *)
Definition curve (name : string) (gap : Atoms → float)
    (h : gmap ref Atoms) (dimers : list ref) : gmap ref Atoms * list float :=
  fold_left (curve_one name gap) dimers (h, []).

(** The dimers, dereferenced. *)
Definition objects (h : gmap ref Atoms) (dimers : list ref) : list (option Atoms) :=
  map (λ l, h !! l) dimers.

(** [dim.positions[1,0]]. *)
Definition separation (a : Atoms) : option float :=
  p ← positions a !! 1%nat; Some p.1.1.

(** [[dim.positions[1,0] for dim in dimers]], the abscissae of the plot. *)
Definition separations (h : gmap ref Atoms) (dimers : list ref) : list (option float) :=
  map (λ l, a ← h !! l; separation a) dimers.

End Dimers.

(** * Properties *)

(** ** The order of binary64 *)

Module Float64Facts.

(** Comparison of finite floats is lexicographic in exponent and
    mantissa; the cases of a transitivity proof are closed by comparing
    both in turn. *)
Ltac sf_signs :=
  repeat match goal with s : bool |- _ => destruct s end.

Ltac sf_lexicographic ea eb ec ma mb mc :=
  change (PosDef.Pos.compare_cont Eq) with Pos.compare;
  intros; f_equal;
  destruct (Z.compare_spec ea eb), (Z.compare_spec eb ec); try discriminate;
  destruct (Z.compare_spec ea ec); try lia; try reflexivity; subst;
  destruct (Pos.compare_spec ma mb), (Pos.compare_spec mb mc); try discriminate;
  destruct (Pos.compare_spec ma mc); try lia; try reflexivity;
  cbn in *; try discriminate.

Lemma SFcompare_lt_trans (a b c : spec_float) :
  SFcompare a b = Some Lt → SFcompare b c = Some Lt → SFcompare a c = Some Lt.
Proof.
  destruct a as [sa|sa| |sa ma ea], b as [sb|sb| |sb mb eb], c as [sc|sc| |sc mc ec];
    cbn [SFcompare]; try discriminate; try reflexivity;
    sf_signs; try discriminate; try reflexivity.
  all: sf_lexicographic ea eb ec ma mb mc.
Qed.

Lemma SFcompare_lt_le_trans (a b c : spec_float) :
  SFcompare a b = Some Lt → SFleb b c = true → SFcompare a c = Some Lt.
Proof.
  unfold SFleb.
  destruct a as [sa|sa| |sa ma ea], b as [sb|sb| |sb mb eb], c as [sc|sc| |sc mc ec];
    cbn [SFcompare]; try discriminate; try reflexivity;
    sf_signs; try discriminate; try reflexivity.
  all: sf_lexicographic ea eb ec ma mb mc.
Qed.

Lemma SFcompare_lt_nlt_trans (a b c : spec_float) :
  SFcompare a b = Some Lt → SFcompare c b ≠ Some Lt → c ≠ S754_nan →
  SFcompare a c = Some Lt.
Proof.
  destruct a as [sa|sa| |sa ma ea], b as [sb|sb| |sb mb eb], c as [sc|sc| |sc mc ec];
    cbn [SFcompare]; intros H1 H2 H3; try discriminate; try congruence;
    sf_signs; try discriminate; try congruence.
  all: revert H1 H2; change (PosDef.Pos.compare_cont Eq) with Pos.compare.
  all: destruct (Z.compare_spec ea eb), (Z.compare_spec ec eb); intros; try discriminate;
       try congruence; f_equal;
       destruct (Z.compare_spec ea ec); try lia; try reflexivity; subst.
  all: revert H1 H2; destruct (Pos.compare_spec ma mb), (Pos.compare_spec mc mb);
       cbn; intros; try discriminate; try congruence;
       destruct (Pos.compare_spec ma mc); cbn; try lia; try reflexivity.
Qed.

Lemma SFcompare_lt_irrefl (a : spec_float) : SFcompare a a ≠ Some Lt.
Proof.
  destruct a as [sa|sa| |sa ma ea]; cbn [SFcompare]; try discriminate;
    destruct sa; try discriminate.
  all: rewrite Z.compare_refl; change (PosDef.Pos.compare_cont Eq) with Pos.compare;
    rewrite Pos.compare_refl; discriminate.
Qed.

Lemma ltb_trans (x y z : float) :
  PrimFloat.ltb x y = true → PrimFloat.ltb y z = true → PrimFloat.ltb x z = true.
Proof.
  rewrite !FloatAxioms.ltb_spec. unfold SFltb.
  destruct (SFcompare (Prim2SF x) (Prim2SF y)) as [[]|] eqn:E1; try discriminate.
  destruct (SFcompare (Prim2SF y) (Prim2SF z)) as [[]|] eqn:E2; try discriminate.
  intros _ _. by rewrite (SFcompare_lt_trans _ _ _ E1 E2).
Qed.

Lemma ltb_leb_trans (x y z : float) :
  PrimFloat.ltb x y = true → PrimFloat.leb y z = true → PrimFloat.ltb x z = true.
Proof.
  rewrite !FloatAxioms.ltb_spec, FloatAxioms.leb_spec. unfold SFltb.
  destruct (SFcompare (Prim2SF x) (Prim2SF y)) as [[]|] eqn:E1; try discriminate.
  intros _ E2. by rewrite (SFcompare_lt_le_trans _ _ _ E1 E2).
Qed.

Lemma ltb_irrefl (x : float) : PrimFloat.ltb x x = false.
Proof.
  rewrite FloatAxioms.ltb_spec. unfold SFltb.
  pose proof (SFcompare_lt_irrefl (Prim2SF x)).
  destruct (SFcompare (Prim2SF x) (Prim2SF x)) as [[]|]; congruence.
Qed.

Lemma ltb_nan_r (x m : float) : PrimFloat.is_nan m = true → PrimFloat.ltb x m = false.
Proof.
  unfold PrimFloat.is_nan. rewrite FloatAxioms.eqb_spec, FloatAxioms.ltb_spec.
  unfold SFeqb, SFltb.
  destruct (Prim2SF m) as [s|s| |s mm e], (Prim2SF x) as [s'|s'| |s' mm' e'];
    cbn; try discriminate; try reflexivity.
  all: try (destruct s; discriminate).
  all: rewrite Z.compare_refl; change (PosDef.Pos.compare_cont Eq) with Pos.compare;
    rewrite Pos.compare_refl; destruct s; discriminate.
Qed.

Lemma is_nan_false (m : float) : PrimFloat.is_nan m = false → Prim2SF m ≠ S754_nan.
Proof.
  unfold PrimFloat.is_nan. rewrite FloatAxioms.eqb_spec. intros H Hn. rewrite Hn in H.
  discriminate H.
Qed.

(** [y < x] and [x <= m], the latter as: not [m < x], and [m] a number. *)
Lemma ltb_nltb_trans (y x m : float) :
  PrimFloat.ltb y x = true → PrimFloat.ltb m x = false → PrimFloat.is_nan m = false →
  PrimFloat.ltb y m = true.
Proof.
  rewrite !FloatAxioms.ltb_spec. unfold SFltb. intros H1 H2 H3%is_nan_false.
  destruct (SFcompare (Prim2SF y) (Prim2SF x)) as [[]|] eqn:E1; try discriminate.
  rewrite (SFcompare_lt_nlt_trans _ _ _ E1); [done| |done].
  intros E2. by rewrite E2 in H2.
Qed.

End Float64Facts.

(** ** [min] on arrays *)

Module NumpyFacts.
Import Py Float64 Float64Facts.

Lemma min2_choice (m x : float) : Numpy.min2 m x = m ∨ Numpy.min2 m x = x.
Proof. unfold Numpy.min2. destruct (PrimFloat.ltb m x || PrimFloat.is_nan m); auto. Qed.

(** Nothing that was not below the accumulator is below the new one. *)
Lemma min2_lower_old (m x y : float) :
  PrimFloat.ltb y m = false → PrimFloat.ltb y (Numpy.min2 m x) = false.
Proof.
  intros Hm. unfold Numpy.min2.
  destruct (PrimFloat.ltb m x) eqn:Hmx; [done|].
  destruct (PrimFloat.is_nan m) eqn:Nm; [done|]. cbn [orb].
  destruct (PrimFloat.ltb y x) eqn:Hyx; [|done].
  by rewrite (ltb_nltb_trans _ _ _ Hyx Hmx Nm) in Hm.
Qed.

Lemma min2_lower_new (m x : float) : PrimFloat.ltb x (Numpy.min2 m x) = false.
Proof.
  unfold Numpy.min2.
  destruct (PrimFloat.ltb m x) eqn:Hmx; cbn [orb].
  - destruct (PrimFloat.ltb x m) eqn:Hxm; [|done].
    by rewrite <- (ltb_irrefl x), (ltb_trans _ _ _ Hxm Hmx).
  - destruct (PrimFloat.is_nan m) eqn:Nm; [by apply ltb_nan_r|apply ltb_irrefl].
Qed.

Lemma fold_min2_elem (xs : list float) (x : float) : fold_left Numpy.min2 xs x ∈ x :: xs.
Proof.
  revert x. induction xs as [|y ys IH]; intros x; cbn; [by left|].
  specialize (IH (Numpy.min2 x y)). apply elem_of_cons in IH as [Hhd|Htl].
  - rewrite Hhd. destruct (min2_choice x y) as [-> | ->]; [by left|right; by left].
  - by do 2 right.
Qed.

Lemma fold_min2_lower (xs : list float) (x : float) (seen : list float) :
  Forall (λ y, PrimFloat.ltb y x = false) seen →
  Forall (λ y, PrimFloat.ltb y (fold_left Numpy.min2 xs x) = false) (seen ++ xs).
Proof.
  revert x seen. induction xs as [|z zs IH]; intros x seen Hseen; cbn.
  - by rewrite app_nil_r.
  - specialize (IH (Numpy.min2 x z) (seen ++ [z])). rewrite <- app_assoc in IH.
    apply IH. apply Forall_app. split.
    + eapply Forall_impl; [done|]. cbn. intros y Hy. by apply min2_lower_old.
    + repeat constructor. apply min2_lower_new.
Qed.

(** [a.min()] raises on the empty array only, and otherwise returns an
    element of the array below which no element lies. *)
Lemma min_spec (a : list float) :
  match Numpy.min a with
  | inl e => a = [] ∧ e = "ValueError"
  | inr m => m ∈ a ∧ Forall (λ y, PrimFloat.ltb y m = false) a
  end.
Proof.
  destruct a as [|x xs]; cbn; [done|]. split; [apply fold_min2_elem|].
  apply (fold_min2_lower xs x [x]). repeat constructor. apply ltb_irrefl.
Qed.

End NumpyFacts.

(** ** The structure builder *)

Module StructureBuilderFacts.
Import Py Float64 Config StructureBuilder NumpyFacts.

Section Builder.

Variable Diamond : string → float → Z * Z * Z → result Atoms.
Variable stretch_cell : cell_t → float → cell_t.

(** The three ways [build_slab] can end, for any lattice factory: an
    exception of the factory passes through unchanged, an empty lattice
    makes [min] raise ValueError, and in every other case a configuration
    is returned whatever the vacuum is, with the lattice's atoms, the mask
    of the bottom layer and the stretched cell. *)
Lemma build_slab_cases (size : Z * Z * Z) (vacuum : float) :
  match Diamond "Si" 5.44%float size with
  | inl e => build_slab Diamond stretch_cell size vacuum = inl e
  | inr lattice =>
      match Numpy.min (map zcoord (positions lattice)) with
      | inl _ =>
          positions lattice = []
          ∧ build_slab Diamond stretch_cell size vacuum = inl "ValueError"
      | inr bottom =>
          positions lattice ≠ []
          ∧ build_slab Diamond stretch_cell size vacuum =
              inr (mkAtoms (numbers lattice) (positions lattice) (momenta lattice)
                     (stretch_cell (cell lattice) vacuum)
                     (map (in_bottom_layer bottom) (map zcoord (positions lattice)))
                     (calc lattice) (energy lattice))
      end
  end.
Proof.
  unfold build_slab. destruct (Diamond "Si" 5.44%float size) as [e|lattice]; cbn; [done|].
  pose proof (min_spec (map zcoord (positions lattice))) as Hmin.
  destruct (Numpy.min (map zcoord (positions lattice))) as [e|bottom]; cbn.
  - destruct Hmin as [Hnil ->]. split; [|done]. by apply map_eq_nil in Hnil.
  - split; [|done]. destruct Hmin as [Hin _]. intros Hnil. rewrite Hnil in Hin.
    by apply elem_of_nil in Hin.
Qed.

(** The same facts, for a builder that returned. *)
Lemma build_slab_returns (size : Z * Z * Z) (vacuum : float) (slab : Atoms) :
  build_slab Diamond stretch_cell size vacuum = inr slab →
  ∃ (lattice : Atoms) (bottom : float),
    Diamond "Si" 5.44%float size = inr lattice
    ∧ Numpy.min (map zcoord (positions lattice)) = inr bottom
    ∧ slab = mkAtoms (numbers lattice) (positions lattice) (momenta lattice)
               (stretch_cell (cell lattice) vacuum)
               (map (in_bottom_layer bottom) (map zcoord (positions lattice)))
               (calc lattice) (energy lattice).
Proof.
  intros Hslab. unfold build_slab in Hslab.
  destruct (Diamond "Si" 5.44%float size) as [e|lattice] eqn:HD; [done|]. cbn in Hslab.
  destruct (Numpy.min (map zcoord (positions lattice))) as [e|bottom] eqn:Hb; [done|].
  cbn in Hslab. injection Hslab as <-. by exists lattice, bottom.
Qed.

(** C5.  In a configuration the builder returns, the mask has one entry
    per atom, and the atom at index [i] is fixed exactly when its z lies
    within 2.0 of [bottom]; [bottom] is the z of some atom and no atom has
    a smaller z. *)
Theorem fixed_iff_bottom_layer (size : Z * Z * Z) (vacuum : float) (slab : Atoms) :
  build_slab Diamond stretch_cell size vacuum = inr slab →
  ∃ bottom : float,
    bottom ∈ map zcoord (positions slab)
    ∧ Forall (λ z, PrimFloat.ltb z bottom = false) (map zcoord (positions slab))
    ∧ length (fixed slab) = length (positions slab)
    ∧ ∀ (i : nat) (p : vec3), positions slab !! i = Some p →
        (fixed slab !! i = Some true
         ↔ PrimFloat.ltb (PrimFloat.abs (PrimFloat.sub (zcoord p) bottom)) 2.0%float = true)
        ∧ is_Some (fixed slab !! i).
Proof.
  intros Hslab. destruct (build_slab_returns _ _ _ Hslab) as (lattice & bottom & _ & Hb & ->).
  pose proof (min_spec (map zcoord (positions lattice))) as Hmin. rewrite Hb in Hmin.
  cbn. exists bottom. destruct Hmin as [Hin Hlow].
  split; [done|]. split; [done|]. split; [by rewrite !length_map|].
  intros i p Hp. rewrite !list_lookup_fmap, Hp. cbn. unfold in_bottom_layer.
  split; [|by eexists]. split; [by intros [= ->]|by intros ->].
Qed.

End Builder.

End StructureBuilderFacts.

(** ** The builder on the toolkit's lattice factory *)

Module ToolkitFacts.
Import Py Float64 Config StructureBuilder.

Lemma length_bind_const {A B : Type} (f : A → list B) (l : list A) (n : nat) :
  (∀ x, length (f x) = n) → length (l ≫= f) = (length l * n)%nat.
Proof.
  intros Hf. induction l as [|x l IH]; [done|].
  rewrite bind_cons, length_app, Hf, IH. cbn. lia.
Qed.

Lemma length_range (n : Z) : length (Toolkit.range n) = Z.to_nat n.
Proof. unfold Toolkit.range. by rewrite length_map, length_seq. Qed.

(** The factory refuses a size with a count that is not positive. *)
Lemma Diamond_refuses (symbol : string) (a : float) (nx ny nz : Z) :
  (nx ≤ 0 ∨ ny ≤ 0 ∨ nz ≤ 0)%Z →
  Toolkit.Diamond symbol a (nx, ny, nz) = inl "ValueError".
Proof.
  intros H. unfold Toolkit.Diamond.
  replace ((nx <=? 0) || (ny <=? 0) || (nz <=? 0))%Z with true; [done|].
  symmetry. rewrite !orb_true_iff, !Z.leb_le. tauto.
Qed.

(** Otherwise it returns eight atoms for every replica of the cell, in a
    cell whose sides are the lattice constant times the counts. *)
Lemma Diamond_lattice (symbol : string) (a : float) (nx ny nz : Z) :
  (0 < nx ∧ 0 < ny ∧ 0 < nz)%Z →
  ∃ lattice : Atoms,
    Toolkit.Diamond symbol a (nx, ny, nz) = inr lattice
    ∧ Z.of_nat (length (positions lattice)) = (8 * nx * ny * nz)%Z
    ∧ cell lattice =
        ((a * of_Z nx, 0, 0), (0, a * of_Z ny, 0), (0, 0, a * of_Z nz))%float.
Proof.
  intros (Hx & Hy & Hz). unfold Toolkit.Diamond.
  replace ((nx <=? 0) || (ny <=? 0) || (nz <=? 0))%Z with false
    by (symmetry; rewrite !orb_false_iff, !Z.leb_gt; tauto).
  eexists. split; [reflexivity|]. split; [|reflexivity].
  cbn [positions].
  rewrite (length_bind_const _ _ (Z.to_nat ny * (Z.to_nat nz * 8))).
  - rewrite length_range. lia.
  - intros i. rewrite (length_bind_const _ _ (Z.to_nat nz * 8)).
    + by rewrite length_range.
    + intros j. rewrite (length_bind_const _ _ 8).
      * by rewrite length_range.
      * intros k. by rewrite length_map.
Qed.

(** C6 (as amended).  Run on the toolkit's lattice factory, [build_slab]
    returns a configuration exactly when the three replication counts are
    positive.  With a count that is not positive it raises the factory's
    ValueError, whatever the vacuum is.  With positive counts it returns a
    configuration of [8 * nx * ny * nz] atoms for every vacuum, positive
    or not, the cell being the lattice's cell stretched by that vacuum. *)
Theorem build_slab_needs_positive_size_only
    (stretch_cell : cell_t → float → cell_t) (nx ny nz : Z) (vacuum : float) :
  ((∃ slab : Atoms, build_slab Toolkit.Diamond stretch_cell (nx, ny, nz) vacuum = inr slab)
   ↔ (0 < nx ∧ 0 < ny ∧ 0 < nz)%Z)
  ∧ ((nx ≤ 0 ∨ ny ≤ 0 ∨ nz ≤ 0)%Z →
     build_slab Toolkit.Diamond stretch_cell (nx, ny, nz) vacuum = inl "ValueError")
  ∧ ((0 < nx ∧ 0 < ny ∧ 0 < nz)%Z →
     ∃ slab : Atoms,
       build_slab Toolkit.Diamond stretch_cell (nx, ny, nz) vacuum = inr slab
       ∧ len slab = (8 * nx * ny * nz)%Z
       ∧ cell slab =
           stretch_cell ((5.44 * of_Z nx, 0, 0), (0, 5.44 * of_Z ny, 0),
                         (0, 0, 5.44 * of_Z nz))%float vacuum).
Proof.
  assert (Hbad : (nx ≤ 0 ∨ ny ≤ 0 ∨ nz ≤ 0)%Z →
            build_slab Toolkit.Diamond stretch_cell (nx, ny, nz) vacuum = inl "ValueError").
  { intros H. unfold build_slab. by rewrite Diamond_refuses. }
  assert (Hgood : (0 < nx ∧ 0 < ny ∧ 0 < nz)%Z →
            ∃ slab : Atoms,
              build_slab Toolkit.Diamond stretch_cell (nx, ny, nz) vacuum = inr slab
              ∧ len slab = (8 * nx * ny * nz)%Z
              ∧ cell slab =
                  stretch_cell ((5.44 * of_Z nx, 0, 0), (0, 5.44 * of_Z ny, 0),
                                (0, 0, 5.44 * of_Z nz))%float vacuum).
  { intros H.
    destruct (Diamond_lattice "Si" 5.44%float nx ny nz H) as (lattice & HD & Hlen & Hcell).
    pose proof (StructureBuilderFacts.build_slab_cases
                  Toolkit.Diamond stretch_cell (nx, ny, nz) vacuum) as Hc.
    rewrite HD in Hc.
    destruct (Numpy.min (map zcoord (positions lattice))) as [e|bottom].
    - destruct Hc as [Hnil _]. rewrite Hnil in Hlen. cbn in Hlen. lia.
    - destruct Hc as [_ ->]. eexists. split; [reflexivity|].
      unfold len. cbn [positions cell]. by rewrite Hcell. }
  split; [|by split].
  split; [|intros H; destruct (Hgood H) as (slab & Hs & _); by exists slab].
  intros [slab Hs].
  destruct (decide (0 < nx ∧ 0 < ny ∧ 0 < nz)%Z) as [|Hn]; [done|].
  rewrite Hbad in Hs by lia. discriminate.
Qed.

(** The witness of C6: the default size with a negative vacuum, and a
    size with a count of zero. *)
Lemma build_slab_needs_positive_size_only_witness :
  (∃ slab : Atoms,
     build_slab Toolkit.Diamond Toolkit.stretch_cell (1, 2, 2)%Z (-1.0)%float = inr slab
     ∧ len slab = (8 * 1 * 2 * 2)%Z
     ∧ cell slab =
         Toolkit.stretch_cell ((5.44 * of_Z 1, 0, 0), (0, 5.44 * of_Z 2, 0),
                               (0, 0, 5.44 * of_Z 2))%float (-1.0)%float)
  ∧ build_slab Toolkit.Diamond Toolkit.stretch_cell (0, 2, 2)%Z 10.0%float = inl "ValueError".
Proof.
  split.
  - apply (build_slab_needs_positive_size_only Toolkit.stretch_cell 1 2 2 (-1.0)%float). lia.
  - apply (build_slab_needs_positive_size_only Toolkit.stretch_cell 0 2 2 10.0%float). lia.
Defined.

End ToolkitFacts.

(** ** The tutorial's slab *)

Module TutorialSlabFacts.
Import Py Float64 Config StructureBuilder TutorialSlab.

Lemma built_slab : built = inr slab.
Proof. vm_compute. reflexivity. Qed.

(** 32 atoms, of which the 8 of the two lowest layers are fixed. *)
Example slab_size :
  length (positions slab) = 32%nat
  ∧ length (filter (λ b, b = true) (fixed slab)) = 8%nat.
Proof. vm_compute. done. Qed.

(** The witness of C5: the default slab. *)
Lemma fixed_iff_bottom_layer_witness :
  ∃ bottom : float,
    bottom ∈ map zcoord (positions slab)
    ∧ Forall (λ z, PrimFloat.ltb z bottom = false) (map zcoord (positions slab))
    ∧ length (fixed slab) = length (positions slab)
    ∧ ∀ (i : nat) (p : vec3), positions slab !! i = Some p →
        (fixed slab !! i = Some true
         ↔ PrimFloat.ltb (PrimFloat.abs (PrimFloat.sub (zcoord p) bottom)) 2.0%float = true)
        ∧ is_Some (fixed slab !! i).
Proof.
  apply (StructureBuilderFacts.fixed_iff_bottom_layer
           Toolkit.Diamond Toolkit.stretch_cell (1, 2, 2)%Z 10.0%float slab).
  vm_compute. reflexivity.
Defined.

(** The counterexample to C6: a vacuum that is negative, and one that is
    zero, still give a configuration (the cell shrinks, or stays), and a
    replication count of zero fails in the lattice factory with an
    exception that is not InvalidGeometry. *)
Lemma nonpositive_vacuum_is_accepted :
  PrimFloat.leb (-1.0) 0 = true
  ∧ (∃ a, build_slab Toolkit.Diamond Toolkit.stretch_cell (1, 2, 2)%Z (-1.0)%float = inr a
          ∧ length (positions a) = 32%nat)
  ∧ (∃ a, build_slab Toolkit.Diamond Toolkit.stretch_cell (1, 2, 2)%Z 0%float = inr a
          ∧ length (positions a) = 32%nat)
  ∧ build_slab Toolkit.Diamond Toolkit.stretch_cell (0, 2, 2)%Z 10.0%float
      ≠ inl "InvalidGeometry".
Proof.
  split; [vm_compute; reflexivity|]. split; [|split].
  - eexists. split; [vm_compute; reflexivity|]. vm_compute. reflexivity.
  - eexists. split; [vm_compute; reflexivity|]. vm_compute. reflexivity.
  - vm_compute. discriminate.
Qed.

End TutorialSlabFacts.

(** ** The energy comparison *)

Module EvaluationFacts.
Import Py Float64 Config Evaluation.

Lemma py_sum_float (x : float) (xs : list float) :
  Numpy.py_sum (x :: xs) = NpFloat (fold_left PrimFloat.add (x :: xs) 0%float).
Proof.
  unfold Numpy.py_sum. cbn [fold_left].
  change (Numpy.py_add (PyInt 0) x) with (NpFloat (0 + x)%float).
  generalize (0 + x)%float as acc. induction xs as [|y ys IH]; intros acc; [done|].
  cbn [fold_left]. apply IH.
Qed.

Lemma square_sub (a b : list float) :
  Numpy.square (Numpy.sub a b) = squared_errors a b.
Proof.
  unfold Numpy.square, Numpy.sub, squared_errors.
  revert b. induction a as [|x a IH]; intros [|y b]; cbn; [done..|]. by rewrite IH.
Qed.

Lemma squared_errors_length (a b : list float) :
  length a = length b → length (squared_errors a b) = length b.
Proof. intros H. unfold squared_errors. rewrite length_zip_with. lia. Qed.

(** The RMSE expression on two sequences of one length: the root of the
    mean of the squared per-atom errors, and ZeroDivisionError (the int 0
    that [sum] returns, divided by the int 0) when they are empty. *)
Lemma rmse_equal_length (qm gp : list float) (n : Z) :
  length qm = length gp →
  rmse qm gp n =
    match gp with
    | [] => inl "ZeroDivisionError"
    | _ :: _ => inr (per_atom_rmse n qm gp)
    end.
Proof.
  intros Hlen. unfold rmse, per_atom_rmse, rms_error, mean.
  rewrite square_sub. unfold Numpy.div_int.
  fold (per_atom n).
  rewrite squared_errors_length by (by rewrite !length_map).
  rewrite length_map.
  destruct gp as [|g gp], qm as [|q qm]; try discriminate; [done|].
  cbn [map squared_errors zip_with]. rewrite py_sum_float. done.
Qed.

Section WithOracle.

Variable name : string.
Variable gap : Atoms → float.

(** C1 (as amended).  On a database with a first snapshot the evaluation
    cells return the root-mean-square error of the per-atom energies,
    every energy divided by the atom count of that first snapshot.  On the
    empty database they raise IndexError, at [db[0]], and so return no
    number at all, nan included. *)
Theorem evaluation_rmse_or_IndexError (db : list Atoms) :
  match db with
  | [] =>
      evaluation name gap db = inl "IndexError"
      ∧ ∀ v : float, evaluation name gap db ≠ inr v
  | first :: _ =>
      evaluation name gap db =
        inr (per_atom_rmse (len first) (qm_energies db) (gap_energies name gap db))
  end.
Proof.
  destruct db as [|first rest]; [split; [done|intros v; discriminate]|].
  unfold evaluation. cbn [Natoms lookup list_lookup bind ret].
  rewrite rmse_equal_length by (unfold qm_energies, gap_energies; by rewrite !length_map).
  done.
Qed.

End WithOracle.

(** The counterexample to C1: on the empty database the exception is
    IndexError, not InsufficientData. *)
Lemma empty_database_raises_IndexError :
  evaluation "gap2b" energy [] = inl "IndexError"
  ∧ evaluation "gap2b" energy [] ≠ inl "InsufficientData".
Proof. split; [reflexivity|discriminate]. Qed.

(** The expression of the RMSE cell alone, on empty sequences. *)
Example rmse_of_nothing : rmse [] [] 32 = inl "ZeroDivisionError".
Proof. reflexivity. Qed.

(** The two arrays, case by case. *)
Lemma normalised_cases (name : string) (gap : Atoms → float) (db : list Atoms) :
  match db with
  | [] => normalised name gap db = inl "IndexError"
  | first :: _ =>
      normalised name gap db =
        inr (map (λ s, PrimFloat.div (energy s) (of_Z (len first))) db,
             map (λ s, PrimFloat.div (predict name gap s) (of_Z (len first))) db)
  end.
Proof.
  destruct db as [|first rest]; [done|].
  unfold normalised. cbn [Natoms lookup list_lookup bind ret].
  unfold Numpy.div_int, qm_energies, gap_energies. by rewrite !map_map.
Qed.




(** With snapshots of different sizes the arrays are not the energies per
    atom: the second snapshot has four atoms and is divided by two. *)
Example normalised_not_per_atom :
  normalised "gap2b" energy [snapshot 2 (-8); snapshot 4 (-8)] =
    inr ([-4; -4]%float, [-4; -4]%float)
  ∧ map (own_per_atom energy) [snapshot 2 (-8); snapshot 4 (-8)] = [-4; -2]%float.
Proof. split; vm_compute; reflexivity. Qed.

End EvaluationFacts.

(** ** The trajectory database *)

Module StoreFacts.
Import Py Float64 Config Store.

Lemma new_ref_fresh (h : gmap ref Atoms) : h !! new_ref h = None.
Proof. apply not_elem_of_dom. unfold new_ref. apply is_fresh. Qed.

Lemma new_ref_ne (h : gmap ref Atoms) (l : ref) : is_Some (h !! l) → l ≠ new_ref h.
Proof. intros [a Ha] ->. by rewrite new_ref_fresh in Ha. Qed.

Lemma lookup_alloc (h : gmap ref Atoms) (l : ref) (a : Atoms) :
  is_Some (h !! l) → <[ new_ref h := a ]> h !! l = h !! l.
Proof. intros Hl. rewrite lookup_insert_ne; [done|]. symmetry. by apply new_ref_ne. Qed.

(** The recurring step: a property of the old entries of [db] carries
    over because an allocation leaves allocated references alone. *)
Ltac old_entries :=
  eapply Forall_impl; [eassumption|]; cbn;
  intros ? [? ?]; rewrite ?lookup_alloc by assumption; auto.

Lemma extends_refl (w : World) : extends w w.
Proof. split; [done|done|]. by apply Forall_forall. Qed.

Lemma extends_trans (w1 w2 w3 : World) : extends w1 w2 → extends w2 w3 → extends w1 w3.
Proof.
  intros [Ha1 Hd1 Hh1] [Ha2 Hd2 Hh2]. split.
  - congruence.
  - by etrans.
  - rewrite Forall_forall in *. intros l Hl.
    rewrite Hh2; [by apply Hh1|]. destruct Hd1 as [k ->]. set_solver.
Qed.

Lemma wf_init (a0 : Atoms) : wf (init a0).
Proof.
  split; cbn.
  - rewrite lookup_singleton_eq. by eexists.
  - constructor.
Qed.

Lemma md_step_ok (f : Atoms → Atoms) (w : World) :
  wf w → wf (md_step f w) ∧ extends w (md_step f w).
Proof.
  intros [[a Ha] Hdb]. split; [split|split]; cbn; try done.
  - rewrite lookup_alter_eq, Ha. by eexists.
  - eapply Forall_impl; [done|]. cbn. intros l [[s Hs] Hne]. split; [|done].
    rewrite lookup_alter_ne by done. by eexists.
  - eapply Forall_impl; [done|]. cbn. intros l [_ Hne].
    by rewrite lookup_alter_ne.
Qed.

Lemma collect_data_ok (w : World) : wf w → wf (collect_data w) ∧ extends w (collect_data w).
Proof.
  intros [[a Ha] Hdb]. unfold collect_data. rewrite Ha.
  split; [split|split]; cbn; try done.
  - rewrite lookup_alloc; by eexists.
  - apply Forall_app. split; [old_entries|].
    repeat constructor.
    + rewrite lookup_insert_eq. by eexists.
    + intros Heq. symmetry in Heq. revert Heq. apply new_ref_ne. by eexists.
  - by apply prefix_app_r.
  - old_entries.
Qed.

(** The evaluation loop only allocates. *)
Lemma eval_fold_frame (name : string) (gap : Atoms → float)
    (ls : list ref) (h : gmap ref Atoms) (es : list float) (l : ref) :
  is_Some (h !! l) → (fold_left (eval_one name gap) ls (h, es)).1 !! l = h !! l.
Proof.
  revert h es. induction ls as [|d ls IH]; intros h es Hl; [done|].
  cbn [fold_left]. unfold eval_one at 2. cbn [fst snd].
  destruct (h !! d) as [s|] eqn:Hd; [|by apply IH].
  rewrite IH; rewrite lookup_alloc; done.
Qed.

Lemma omap_lookup_ext (h h' : gmap ref Atoms) (ls : list ref) :
  Forall (λ l, h' !! l = h !! l) ls → omap (λ l, h' !! l) ls = omap (λ l, h !! l) ls.
Proof.
  induction 1 as [|l ls Hl _ IH]; [done|]. cbn. by rewrite Hl, IH.
Qed.

(** It predicts each stored snapshot, in order. *)
Lemma eval_fold_energies (name : string) (gap : Atoms → float)
    (ls : list ref) (h : gmap ref Atoms) (es : list float) :
  Forall (λ l, is_Some (h !! l)) ls →
  (fold_left (eval_one name gap) ls (h, es)).2 =
    es ++ Evaluation.gap_energies name gap (omap (λ l, h !! l) ls).
Proof.
  revert h es. induction ls as [|d ls IH]; intros h es Hls.
  - cbn. by rewrite app_nil_r.
  - apply Forall_cons in Hls as [[s Hs] Hls].
    cbn [fold_left]. unfold eval_one at 2. cbn [fst snd]. rewrite Hs.
    rewrite IH by (eapply Forall_impl; [done|]; cbn; intros l Hl; by rewrite lookup_alloc).
    rewrite <- app_assoc. f_equal.
    cbn [omap list_omap]. rewrite Hs.
    unfold Evaluation.gap_energies. cbn [map app]. f_equal. f_equal.
    apply omap_lookup_ext. eapply Forall_impl; [done|]. cbn. intros l Hl.
    by rewrite lookup_alloc.
Qed.

Lemma eval_pass_ok (name : string) (gap : Atoms → float) (w : World) :
  wf w → wf (eval_pass name gap w).1 ∧ extends w (eval_pass name gap w).1.
Proof.
  intros [Ha Hdb]. unfold eval_pass. cbn [fst].
  split; [split|split]; cbn; try done.
  - by rewrite eval_fold_frame.
  - eapply Forall_impl; [done|]. cbn. intros l [Hs Hl]. by rewrite eval_fold_frame.
  - eapply Forall_impl; [done|]. cbn. intros l [Hs Hl]. by rewrite eval_fold_frame.
Qed.

Lemma relax_ok (f : Atoms → Atoms) (w : World) : wf w → wf (relax f w) ∧ extends w (relax f w).
Proof.
  intros Hw. unfold relax.
  destruct (db w !! 0%nat) as [l|]; [|split; [done|apply extends_refl]].
  destruct (heap w !! l) as [s|]; [|split; [done|apply extends_refl]].
  destruct Hw as [Ha Hdb].
  split; [split|split]; cbn; try done.
  - by rewrite lookup_alloc.
  - old_entries.
  - old_entries.
Qed.

Lemma exec_ok (w : World) (o : op) : wf w → wf (exec w o) ∧ extends w (exec w o).
Proof.
  destruct o; cbn [exec]; auto using md_step_ok, collect_data_ok, eval_pass_ok, relax_ok.
Qed.

Lemma run_ok (ops : list op) (w : World) : wf w → wf (run ops w) ∧ extends w (run ops w).
Proof.
  revert w. induction ops as [|o ops IH]; intros w Hw; [split; [done|apply extends_refl]|].
  cbn. destruct (exec_ok w o Hw) as [Hw1 He1]. destruct (IH _ Hw1) as [Hw2 He2].
  split; [done|]. by eapply extends_trans.
Qed.

Lemma extends_snapshots (w w' : World) : extends w w' → snapshots w `prefix_of` snapshots w'.
Proof.
  intros [_ [k Hk] Hh]. unfold snapshots. rewrite Hk, map_app.
  exists (map (λ l, heap w' !! l) k). f_equal.
  apply map_ext_Forall. eapply Forall_impl; [done|]. by intros l ->.
Qed.

Lemma collect_data_snapshots (w : World) (a : Atoms) :
  wf w → heap w !! atoms w = Some a →
  snapshots (collect_data w) = snapshots w ++ [Some (copy a)].
Proof.
  intros [_ Hdb] Ha. unfold collect_data, snapshots. rewrite Ha. cbn.
  rewrite map_app. cbn. rewrite lookup_insert_eq. f_equal.
  apply map_ext_Forall. old_entries.
Qed.

(** C2.  Whatever ran since [db = []], an append stores a copy of the live
    configuration as the new last snapshot, and whatever runs afterwards
    (dynamics steps on the live configuration, further appends, evaluation
    passes, the relaxation) the snapshots stored so far stay where they
    are and what they are: the database after is the database before,
    extended at its end. *)
Theorem snapshots_are_stable (a0 : Atoms) (before later : list op) :
  let w := run before (init a0) in
  let w1 := collect_data w in
  let w' := run later w1 in
  (∃ a, heap w !! atoms w = Some a ∧ snapshots w1 = snapshots w ++ [Some (copy a)])
  ∧ db w1 `prefix_of` db w'
  ∧ snapshots w1 `prefix_of` snapshots w'.
Proof.
  intros w w1 w'.
  destruct (run_ok before (init a0) (wf_init a0)) as [Hw _]. fold w in Hw.
  destruct (collect_data_ok w Hw) as [Hw1 _]. fold w1 in Hw1.
  destruct (run_ok later w1 Hw1) as [_ He]. fold w' in He.
  split; [|split; [apply He|by apply extends_snapshots]].
  destruct (wf_atoms w Hw) as [a Ha]. exists a. split; [done|].
  by apply collect_data_snapshots.
Qed.

(** Indexed reads of what was stored give the same configuration later. *)
Lemma read_is_stable (w w' : World) (i : nat) (s : Atoms) :
  extends w w' → read w i = Some s → read w' i = Some s.
Proof.
  intros [_ Hdb Hheap]. unfold read. destruct (db w !! i) as [l|] eqn:Hl; [|done].
  cbn. intros Hs. rewrite (prefix_lookup_Some _ _ _ _ Hl Hdb). cbn.
  rewrite Forall_forall in Hheap. rewrite Hheap; [done|].
  by eapply list_elem_of_lookup_2.
Qed.

(** The evaluation pass returns the predictions for the stored snapshots. *)
Lemma eval_pass_energies (name : string) (gap : Atoms → float) (w : World) :
  wf w →
  (eval_pass name gap w).2 =
    Evaluation.gap_energies name gap (omap (λ l, heap w !! l) (db w)).
Proof.
  intros [_ Hdb]. unfold eval_pass. cbn [snd].
  rewrite eval_fold_energies; [done|].
  eapply Forall_impl; [done|]. by intros l [? _].
Qed.

(** With the copy, a step after the append leaves the snapshot alone. *)
Example copy_decouples :
  snapshots (run [Collect; Step moved] (init at_origin)) = [Some (copy at_origin)].
Proof. vm_compute. reflexivity. Qed.

(** Without it ([db.append(atoms)]) the same step moves the snapshot too. *)
Example alias_couples :
  snapshots (md_step moved (collect_alias (init at_origin))) = [Some (moved at_origin)].
Proof. vm_compute. reflexivity. Qed.

End StoreFacts.

(** ** The dynamics runs of the pipeline *)

Module PipelineFacts.
Import Py Pipeline.

Section Units.

Variables kB fs : float.

Lemma notebook_runs : exec_all fresh_kernel (notebook kB fs) =
  inr (mkState (Some "gap_soap") (mkVel (Some (2.0 * T * kB)%float) 700)
         (Some (mkIntegrator (timestep fs) (T * kB)%float 0.002%float 100
                  [("print_status", 10); ("print_energy", 10)]))
         [first_run kB; collection_run kB; validation_run kB]).
Proof. reflexivity. Qed.

(** C3 (as amended).  The pipeline starts three dynamics runs.  The first,
    on the quantum oracle, starts from velocities just drawn from the
    Maxwell-Boltzmann distribution at [2.0 * T * kB], with the thermostat
    at [T * kB].  The other two, the collection run on the quantum oracle
    and the validation run on the fitted potential, draw nothing: they
    start from the velocities that 100 and 600 steps of dynamics left. *)
Theorem only_first_run_is_thermalised :
  dynamics_runs kB fs = [first_run kB; collection_run kB; validation_run kB]
  ∧ thermalised kB (first_run kB)
  ∧ ¬ thermalised kB (collection_run kB)
  ∧ ¬ thermalised kB (validation_run kB)
  ∧ oracle (validation_run kB) = Some "gap_soap"
  ∧ start (validation_run kB) = mkVel (Some (2.0 * T * kB)%float) 600.
Proof.
  split; [unfold dynamics_runs; by rewrite notebook_runs|].
  split; [by split|].
  split; [intros [_ H]; discriminate H|].
  split; [intros [_ H]; discriminate H|done].
Qed.

End Units.

(** The counterexample to C3: whatever the unit constants are, not every
    run of the pipeline starts from a fresh draw; the validation run on
    the fitted potential does not. *)
Lemma validation_run_is_not_thermalised :
  ¬ ∃ kB fs : float, Forall (thermalised kB) (dynamics_runs kB fs).
Proof.
  intros (kB & fs & Hall). unfold dynamics_runs in Hall. rewrite notebook_runs in Hall.
  apply (Forall_forall (thermalised kB)) with (x := validation_run kB) in Hall.
  - destruct Hall as [_ Hstart]. discriminate Hstart.
  - do 2 right. by left.
Qed.

End PipelineFacts.

(** ** The observers of the dynamics engine *)

Module DynamicsFacts.
Import Dynamics.

Section Engine.

Context {C : Type}.
Variable integrate : C → C.

Lemma due_divides (n : nat) (o : observer) : due n o = true ↔ (interval o | n).
Proof.
  unfold due. rewrite Nat.eqb_eq.
  destruct (interval o) as [|k] eqn:Hk.
  - cbn. split; [intros ->; by exists 0|]. intros [q ->]. lia.
  - by rewrite Nat.Lcm0.mod_divide.
Qed.

Lemma call_observers_shape (i n : nat) (c : C) (obs : list observer) :
  Forall (λ ev, at_step ev = n ∧ seen ev = c ∧ i ≤ slot ev) (call_observers i n c obs).
Proof.
  revert i. induction obs as [|o obs IH]; intros i; cbn; [constructor|].
  apply Forall_app. split.
  - destruct (due n o); repeat constructor.
  - eapply Forall_impl; [apply IH|]. cbn. intros ev (?&?&?). repeat split; [done..|lia].
Qed.

Lemma calls_app (i m : nat) (t1 t2 : list (event C)) :
  calls i m (t1 ++ t2) = calls i m t1 + calls i m t2.
Proof. unfold calls. by rewrite filter_app, length_app. Qed.

Lemma calls_head (i0 n : nat) (c : C) (o : observer) (i m : nat) :
  calls i m (if due n o then [mkEvent i0 (callback o) n c] else []) =
    if bool_decide (i = i0 ∧ m = n) && due n o then 1 else 0.
Proof.
  unfold calls. destruct (due n o); [|by rewrite andb_false_r].
  rewrite andb_true_r, filter_cons, filter_nil. cbn [slot at_step].
  destruct (decide (i0 = i ∧ n = m)); case_bool_decide; cbn; [done|lia|lia|done].
Qed.

Lemma calls_call_observers (i0 n : nat) (c : C) (obs : list observer) (i m : nat) :
  calls i m (call_observers i0 n c obs) =
    match obs !! (i - i0) with
    | Some o => if bool_decide (m = n ∧ i0 ≤ i) && due n o then 1 else 0
    | None => 0
    end.
Proof.
  revert i0. induction obs as [|o obs IH]; intros i0; cbn [call_observers]; [done|].
  rewrite calls_app, calls_head, IH.
  destruct (decide (i = i0)) as [->|Hne].
  - rewrite Nat.sub_diag. cbn [lookup list_lookup].
    replace (i0 - S i0) with 0 by lia.
    destruct (obs !! 0), (due n o); repeat case_bool_decide; cbn; try lia;
      destruct (due n _); cbn; lia.
  - destruct (decide (i0 < i)) as [Hlt|Hge].
    + replace (i - i0) with (S (i - S i0)) by lia. cbn [lookup list_lookup].
      destruct (obs !! (i - S i0)); repeat case_bool_decide; cbn; try lia;
        repeat (destruct (due n _); cbn); lia.
    + replace (i - i0) with 0 by lia. replace (i - S i0) with 0 by lia.
      cbn [lookup list_lookup].
      destruct (obs !! 0); repeat case_bool_decide; cbn; try lia;
        repeat (destruct (due n _); cbn); lia.
Qed.

Lemma call_observers_sorted (i n : nat) (c : C) (obs : list observer) :
  StronglySorted precedes (call_observers i n c obs).
Proof.
  revert i. induction obs as [|o obs IH]; intros i; cbn; [constructor|].
  apply StronglySorted_app_2; [|destruct (due n o); repeat constructor|apply IH].
  intros e1 e2 H1 H2.
  pose proof (call_observers_shape (S i) n c obs) as Hs.
  rewrite Forall_forall in Hs. destruct (Hs _ H2) as (Hn & _ & Hi).
  destruct (due n o); [|by apply elem_of_nil in H1].
  apply list_elem_of_singleton in H1 as ->. right. cbn. split; [done|lia].
Qed.

(** The trace of a run, event by event. *)
Lemma run_trace (steps : nat) (e : engine C) :
  let tr := (run integrate steps e).2 in
  Forall (λ ev, nsteps e < at_step ev ≤ nsteps e + steps
                ∧ seen ev = Nat.iter (at_step ev - nsteps e) integrate (config e)) tr
  ∧ StronglySorted precedes tr
  ∧ observers (run integrate steps e).1 = observers e
  ∧ ∀ i n, calls i n tr =
      match observers e !! i with
      | Some o => if bool_decide (nsteps e < n ≤ nsteps e + steps) && due n o then 1 else 0
      | None => 0
      end.
Proof.
  revert e. induction steps as [|k IH]; intros e; cbn zeta.
  - cbn. repeat split; [constructor|constructor|].
    intros i n. destruct (observers e !! i); [|done].
    rewrite bool_decide_eq_false_2 by lia. done.
  - cbn [run fst snd].
    destruct (IH (step integrate e).1) as (Hshape & Hsorted & Hobs & Hcalls).
    cbn [step fst snd nsteps observers config] in *.
    pose proof (call_observers_shape 0 (S (nsteps e)) (integrate (config e)) (observers e)) as Hs1.
    repeat split.
    + apply Forall_app. split.
      * eapply Forall_impl; [apply Hs1|]. cbn. intros ev (-> & -> & _).
        split; [lia|]. replace (S (nsteps e) - nsteps e) with 1 by lia. done.
      * eapply Forall_impl; [apply Hshape|]. cbn. intros ev (Hr & ->).
        split; [lia|].
        replace (at_step ev - nsteps e) with (S (at_step ev - S (nsteps e))) by lia.
        by rewrite Nat.iter_succ_r.
    + apply StronglySorted_app_2; [|apply call_observers_sorted|done].
      intros e1 e2 H1 H2. rewrite Forall_forall in Hs1, Hshape.
      destruct (Hs1 _ H1) as (Hn1 & _). destruct (Hshape _ H2) as (? & _).
      left. lia.
    + done.
    + intros i n. rewrite calls_app, calls_call_observers, Hcalls, Nat.sub_0_r.
      destruct (observers e !! i) as [o|]; [|done].
      destruct (decide (n = S (nsteps e))) as [->|Hne].
      * rewrite (bool_decide_eq_true_2 (S (nsteps e) = S (nsteps e) ∧ 0 ≤ i)) by lia.
        rewrite (bool_decide_eq_false_2 (S (nsteps e) < S (nsteps e) ≤ _)) by lia.
        rewrite (bool_decide_eq_true_2 (nsteps e < S (nsteps e) ≤ _)) by lia.
        cbn. lia.
      * rewrite (bool_decide_eq_false_2 (n = S (nsteps e) ∧ 0 ≤ i)) by lia. cbn.
        destruct (due n o); [|by rewrite !andb_false_r].
        rewrite !andb_true_r.
        destruct (decide (nsteps e < n ≤ nsteps e + S k)).
        -- rewrite !bool_decide_eq_true_2 by lia. done.
        -- rewrite !bool_decide_eq_false_2 by lia. done.
Qed.

(** C4.  In a run of [steps] steps, for a step [n] of the run and the
    callback registered in slot [i] with interval [k]: it is invoked once
    at step [n] if [k] divides [n] and not at all otherwise; every
    invocation is shown the configuration as the update of its step left
    it; and the invocations come in the order of the steps and, within a
    step, of the registrations. *)
Theorem callbacks_fire_on_schedule (e : engine C) (steps i n : nat) (o : observer) :
  observers e !! i = Some o →
  nsteps e < n ≤ nsteps e + steps →
  let tr := (run integrate steps e).2 in
  (calls i n tr = 1 ↔ (interval o | n))
  ∧ (calls i n tr = 0 ↔ ¬ (interval o | n))
  ∧ Forall (λ ev, seen ev = Nat.iter (at_step ev - nsteps e) integrate (config e)) tr
  ∧ StronglySorted precedes tr.
Proof.
  intros Ho Hn tr. destruct (run_trace steps e) as (Hshape & Hsorted & _ & Hcalls).
  fold tr in Hshape, Hsorted, Hcalls.
  specialize (Hcalls i n). rewrite Ho, bool_decide_eq_true_2 in Hcalls by done.
  cbn in Hcalls. rewrite <- due_divides.
  repeat split; try done.
  - rewrite Hcalls. by destruct (due n o).
  - intros Hd. by rewrite Hcalls, Hd.
  - rewrite Hcalls. by destruct (due n o).
  - rewrite Hcalls. destruct (due n o); [by intros []|done].
  - eapply Forall_impl; [apply Hshape|]. by intros ev [_ ?].
Qed.

End Engine.

(** The witness of C4: [print_status] at step 10 of the first 100. *)
Lemma callbacks_fire_on_schedule_witness :
  let tr := (run S 100 tutorial_engine).2 in
  (calls 0 10 tr = 1 ↔ (10 | 10))
  ∧ (calls 0 10 tr = 0 ↔ ¬ (10 | 10))
  ∧ Forall (λ ev, seen ev = Nat.iter (at_step ev - 0) S 0) tr
  ∧ StronglySorted precedes tr.
Proof.
  apply (callbacks_fire_on_schedule S tutorial_engine 100 0 10 (mkObserver "print_status" 10)).
  - reflexivity.
  - cbn. lia.
Defined.

(** The collector, attached after 100 steps with interval 10, is invoked
    50 times in the 500 steps that follow. *)
Example collector_invocations :
  let e := attach "collect_data" 10 (run S 100 tutorial_engine).1 in
  length (filter (λ ev, who ev = "collect_data") (run S 500 e).2) = 50.
Proof. vm_compute. reflexivity. Qed.

End DynamicsFacts.

(** ** The reference energy given to the fitter *)

Module FitterFacts.
Import Fitter.
Local Open Scope string_scope.

(** C10.  The notebook runs the fitter on a training file three times, and
    each of the three command lines carries the parameter
    [e0=-29.716948405885105], whatever isolated-atom energy [E0] the
    kernel holds. *)
Theorem every_fit_passes_the_same_e0 (E0 : float) :
  length (fits E0) = 3
  ∧ map (param "gp_file") (fits E0)
      = [Some "gap_2b.xml"; Some "gap_3b.xml"; Some "gap_2b3bsoap.xml"]
  ∧ Forall (λ i, param "e0" i = Some "-29.716948405885105") (fits E0)
  ∧ fits E0 = fits 0%float.
Proof.
  split; [vm_compute; reflexivity|]. split; [vm_compute; reflexivity|].
  split; [|reflexivity]. vm_compute. repeat constructor.
Qed.

(** The remaining shell cell asks for the help text and fits nothing. *)
Example help_is_no_fit :
  parse help_cell = Some (mkInvocation "!teach_sparse" [] ["--help"]).
Proof. vm_compute. reflexivity. Qed.

End FitterFacts.

(** ** The pairwise descriptor *)

Module DescriptorFacts.
Import Py Float64 Float64Facts Descriptor.

(** Rounding does not look at the sign. *)
Lemma binary_round_aux_opp (prec emax : Z) (s : bool) (m e : Z) (l : location) :
  binary_round_aux prec emax (negb s) m e l = SFopp (binary_round_aux prec emax s m e l).
Proof.
  unfold binary_round_aux.
  destruct (shr_fexp prec emax m e l) as [mrs' e'].
  destruct (shr_fexp prec emax (round_nearest_even (shr_m mrs') (loc_of_shr_record mrs')) e' loc_Exact)
    as [mrs'' e''].
  destruct (shr_m mrs''); [done| |done].
  by destruct (e'' <=? emax - prec)%Z.
Qed.

Lemma binary_round_opp (prec emax : Z) (m : positive) (e : Z) :
  binary_round prec emax true m e = SFopp (binary_round prec emax false m e).
Proof.
  unfold binary_round.
  destruct (shl_align m e (fexp prec emax (Z.pos (digits2_pos m) + e))) as [mz ez].
  apply (binary_round_aux_opp prec emax false).
Qed.

Lemma SFopp_involutive (u : spec_float) : SFopp (SFopp u) = u.
Proof. destruct u as [s|s| |s m e]; cbn; by rewrite ?negb_involutive. Qed.

Lemma binary_normalize_opp (prec emax m e : Z) :
  binary_normalize prec emax (- m) e false = binary_normalize prec emax m e false
  ∨ binary_normalize prec emax (- m) e false = SFopp (binary_normalize prec emax m e false).
Proof.
  destruct m as [|p|p]; cbn.
  - by left.
  - right. apply binary_round_opp.
  - right. by rewrite binary_round_opp, SFopp_involutive.
Qed.

(** [y - x] is [x - y] or its opposite. *)
Lemma SFsub_swap (prec emax : Z) (a b : spec_float) :
  SFsub prec emax b a = SFsub prec emax a b
  ∨ SFsub prec emax b a = SFopp (SFsub prec emax a b).
Proof.
  destruct a as [sa|sa| |sa ma ea], b as [sb|sb| |sb mb eb]; cbn [SFsub SFopp];
    try (by left); try (right; by rewrite ?negb_involutive);
    try (destruct sa, sb; cbn; auto; fail).
  change IntDef.Z.min with Z.min. rewrite (Z.min_comm eb ea).
  set (ez := Z.min ea eb).
  replace (cond_Zopp sb (Z.pos (shl_align mb eb ez).1) - cond_Zopp sa (Z.pos (shl_align ma ea ez).1))%Z
    with (- (cond_Zopp sa (Z.pos (shl_align ma ea ez).1) - cond_Zopp sb (Z.pos (shl_align mb eb ez).1)))%Z
    by lia.
  apply binary_normalize_opp.
Qed.

Lemma SFmul_opp_opp (prec emax : Z) (u : spec_float) :
  SFmul prec emax (SFopp u) (SFopp u) = SFmul prec emax u u.
Proof. by destruct u as [[]|[]| |[] m e]. Qed.

(** The square of a difference does not depend on its direction. *)
Lemma sq_sub_swap (x y : float) : sq (x - y) = sq (y - x).
Proof.
  apply Prim2SF_inj. unfold sq. rewrite !FloatAxioms.mul_spec, !FloatAxioms.sub_spec.
  unfold SF64mul, SF64sub.
  destruct (SFsub_swap prec emax (Prim2SF y) (Prim2SF x)) as [-> | ->]; [done|].
  by rewrite SFmul_opp_opp.
Qed.

Lemma distance_sym (p q : vec3) : distance p q = distance q p.
Proof.
  unfold distance.
  by rewrite (sq_sub_swap p.1.1), (sq_sub_swap p.1.2), (sq_sub_swap p.2).
Qed.

(** C8.  The pairwise descriptor declares two index permutations, the ones
    induced by the two orders of a pair of atoms; both leave the one
    component where it is, so either reproduces the descriptor of a pair,
    and the pair taken in the other order has the same descriptor. *)
Theorem pairwise_has_two_equal_permutations :
  n_perm pairwise = 2
  ∧ atom_orders 2 = [[0; 1]; [1; 0]]
  ∧ index_permutations pairwise = [[0]; [0]]
  ∧ (∀ p q : vec3,
       Forall (λ pi, permute pi (descriptor 2 [p; q]) = descriptor 2 [p; q])
              (index_permutations pairwise))
  ∧ (∀ p q : vec3, descriptor 2 [q; p] = descriptor 2 [p; q]).
Proof.
  split; [reflexivity|]. split; [reflexivity|]. split; [reflexivity|]. split.
  - intros p q. repeat constructor.
  - intros p q. unfold descriptor. change (components 2) with [(0, 1)].
    cbn [map lookup list_lookup fst snd]. by rewrite distance_sym.
Qed.

End DescriptorFacts.

(** ** Exact cases of binary64 arithmetic *)

Module Float64Arith.
Import Float64Facts.

(** A finite float is a zero or a finite number. *)
Lemma is_finite_shape (x : float) :
  PrimFloat.is_finite x = true →
  match Prim2SF x with
  | S754_zero _ | S754_finite _ _ _ => True
  | _ => False
  end.
Proof.
  unfold PrimFloat.is_finite, PrimFloat.is_nan, PrimFloat.is_infinity.
  rewrite !FloatAxioms.eqb_spec, FloatAxioms.abs_spec.
  destruct (Prim2SF x) as [s|s| |s m e]; cbn; try done.
  rewrite orb_true_r. discriminate.
Qed.

(** [x - x] is [+0] for a finite [x]. *)
Lemma sub_diag_finite (x : float) : PrimFloat.is_finite x = true → (x - x)%float = 0%float.
Proof.
  intros Hx%is_finite_shape. apply Prim2SF_inj. rewrite FloatAxioms.sub_spec.
  change (Prim2SF 0) with (S754_zero false). unfold SF64sub.
  destruct (Prim2SF x) as [s|s| |s m e]; try done; cbn [SFsub].
  - by destruct s.
  - by rewrite Z.sub_diag.
Qed.

(** [0 / d] is [+0] for a positive [d]. *)
Lemma div_zero_positive (d : float) : PrimFloat.ltb 0 d = true → (0 / d)%float = 0%float.
Proof.
  rewrite FloatAxioms.ltb_spec. intros Hd. apply Prim2SF_inj.
  rewrite FloatAxioms.div_spec. change (Prim2SF 0) with (S754_zero false) in *.
  unfold SF64div, SFltb in *.
  destruct (Prim2SF d) as [s|s| |s m e]; cbn in *; try done; by destruct s.
Qed.

(** Rounding gives a float of the sign it was asked for, or nan. *)
Lemma binary_round_aux_sign (prec emax : Z) (s : bool) (m e : Z) (l : location) :
  match binary_round_aux prec emax s m e l with
  | S754_zero s' | S754_infinity s' | S754_finite s' _ _ => s' = s
  | S754_nan => True
  end.
Proof.
  unfold binary_round_aux.
  destruct (shr_fexp prec emax m e l) as [mrs' e'].
  destruct (shr_fexp prec emax (round_nearest_even (shr_m mrs') (loc_of_shr_record mrs')) e' loc_Exact)
    as [mrs'' e''].
  destruct (shr_m mrs''); [done| |done].
  by destruct (e'' <=? emax - prec)%Z.
Qed.

(** A square root is never below zero. *)
Lemma sqrt_not_negative (x : float) : PrimFloat.ltb (PrimFloat.sqrt x) 0 = false.
Proof.
  rewrite FloatAxioms.ltb_spec, FloatAxioms.sqrt_spec.
  change (Prim2SF 0) with (S754_zero false). unfold SF64sqrt, SFltb, SFsqrt.
  destruct (Prim2SF x) as [s|[]| |[] m e]; try done.
  destruct (SFsqrt_core_binary prec emax (Z.pos m) e) as [[mz ez] lz].
  pose proof (binary_round_aux_sign prec emax false mz ez lz) as Hs.
  destruct (binary_round_aux prec emax false mz ez lz) as [s'|s'| |s' m' e']; try done;
    by rewrite Hs.
Qed.

(** The square of a difference, in either direction. *)
Lemma square_of_difference (x y : float) :
  ((x - y) * (x - y))%float = ((y - x) * (y - x))%float.
Proof. apply DescriptorFacts.sq_sub_swap. Qed.

End Float64Arith.

(** ** What a run leaves on the heap *)

Module CellsFacts.
Import Py Float64 Config Store Cells StoreFacts.

Lemma exec_atoms (w : World) (o : op) : atoms (exec w o) = atoms w.
Proof.
  destruct o; cbn [exec]; [done| | done |].
  - unfold collect_data. by destruct (heap w !! atoms w).
  - unfold relax. destruct (db w !! 0%nat) as [l|]; [|done]. by destruct (heap w !! l).
Qed.

(** One operation and the live configuration. *)
Lemma exec_live (w : World) (o : op) (a : Atoms) :
  wf w → heap w !! atoms w = Some a →
  heap (exec w o) !! atoms w = Some (live_after [o] a).
Proof.
  intros [Hat Hdb] Ha. destruct o; cbn [exec live_after].
  - cbn. by rewrite lookup_alter_eq, Ha.
  - unfold collect_data. rewrite Ha. cbn. by rewrite lookup_alloc.
  - unfold eval_pass. cbn. by rewrite eval_fold_frame.
  - unfold relax. destruct (db w !! 0%nat) as [l|]; [|done].
    destruct (heap w !! l) as [s|]; [|done]. cbn. by rewrite lookup_alloc.
Qed.

(** One operation and the stored snapshots. *)
Lemma exec_snapshots (w : World) (o : op) (a : Atoms) :
  wf w → heap w !! atoms w = Some a →
  snapshots (exec w o) = snapshots w ++ map Some (collected [o] a).
Proof.
  intros Hw Ha. destruct o; cbn [exec collected map]; rewrite ?app_nil_r.
  - destruct Hw as [_ Hdb]. unfold snapshots. cbn. apply map_ext_Forall.
    eapply Forall_impl; [done|]. cbn. intros l [_ Hl]. by rewrite lookup_alter_ne.
  - by apply collect_data_snapshots.
  - destruct Hw as [_ Hdb]. unfold snapshots, eval_pass. cbn. apply map_ext_Forall.
    eapply Forall_impl; [done|]. cbn. intros l [Hl _]. by rewrite eval_fold_frame.
  - destruct Hw as [_ Hdb]. unfold relax.
    destruct (db w !! 0%nat) as [l0|]; [|done]. destruct (heap w !! l0) as [s|]; [|done].
    unfold snapshots. cbn. apply map_ext_Forall. old_entries.
Qed.

Lemma live_after_cons (o : op) (ops : list op) (a : Atoms) :
  live_after (o :: ops) a = live_after ops (live_after [o] a).
Proof. by destruct o. Qed.

Lemma collected_cons (o : op) (ops : list op) (a : Atoms) :
  collected (o :: ops) a = collected [o] a ++ collected ops (live_after [o] a).
Proof. by destruct o. Qed.

(** A run, from any well-formed world. *)
Lemma run_from (ops : list op) (w : World) (a : Atoms) :
  wf w → heap w !! atoms w = Some a →
  atoms (run ops w) = atoms w
  ∧ heap (run ops w) !! atoms w = Some (live_after ops a)
  ∧ snapshots (run ops w) = snapshots w ++ map Some (collected ops a).
Proof.
  revert w a. induction ops as [|o ops IH]; intros w a Hw Ha.
  - cbn. by rewrite app_nil_r.
  - destruct (exec_ok w o Hw) as [Hw1 _].
    pose proof (exec_live w o a Hw Ha) as Ha1. rewrite <- (exec_atoms w o) in Ha1.
    destruct (IH (exec w o) _ Hw1 Ha1) as (Hat & Hlive & Hsnap).
    change (run (o :: ops) w) with (run ops (exec w o)).
    rewrite live_after_cons, collected_cons, map_app, app_assoc.
    rewrite <- (exec_snapshots w o a Hw Ha). rewrite !exec_atoms in *. done.
Qed.

Lemma read_snapshots (w : World) (i : nat) : read w i = snapshots w !! i ≫= id.
Proof. unfold read, snapshots. rewrite list_lookup_fmap. by destruct (db w !! i). Qed.

Lemma db_values_snapshots (w : World) (vs : list Atoms) :
  snapshots w = map Some vs → db_values w = vs.
Proof.
  unfold snapshots, db_values. generalize (db w) as ls. intros ls. revert vs.
  induction ls as [|l ls IH]; intros [|v vs]; cbn; try done.
  intros [= Hl Hls]. rewrite Hl. cbn. by rewrite (IH vs).
Qed.

Lemma collected_length (ops : list op) (a : Atoms) :
  length (collected ops a) = length (filter (λ o, is_collect o = true) ops).
Proof.
  revert a. induction ops as [|o ops IH]; intros a; [done|].
  rewrite filter_cons. destruct o; cbn; by rewrite IH.
Qed.

Lemma collected_app (ops1 ops2 : list op) (a : Atoms) :
  collected (ops1 ++ ops2) a = collected ops1 a ++ collected ops2 (live_after ops1 a).
Proof.
  revert a. induction ops1 as [|o ops1 IH]; intros a; [done|].
  destruct o; cbn; by rewrite IH.
Qed.

Lemma run_snapshots (a0 : Atoms) (ops : list op) :
  snapshots (run ops (init a0)) = map Some (collected ops a0).
Proof.
  destruct (run_from ops (init a0) a0 (wf_init a0)) as (_ & _ & Hsnap).
  - cbn. by rewrite lookup_singleton_eq.
  - by rewrite Hsnap.
Qed.

Lemma run_db_values (a0 : Atoms) (ops : list op) :
  db_values (run ops (init a0)) = collected ops a0.
Proof. apply db_values_snapshots, run_snapshots. Qed.

(** X1.  After any operations since [db = []], [db[i]] is the copy that
    the call number [i] of [collect_data] made of the live configuration
    as it was then, and nothing beyond the last call; [len(db)] is the
    number of calls. *)
Theorem db_holds_the_copies_in_order (a0 : Atoms) (ops : list op) :
  let w := run ops (init a0) in
  (∀ i : nat, read w i = collected ops a0 !! i)
  ∧ length (db w) = length (filter (λ o, is_collect o = true) ops).
Proof.
  intros w. pose proof (run_snapshots a0 ops) as Hsnap. fold w in Hsnap. split.
  - intros i. rewrite read_snapshots, Hsnap, list_lookup_fmap.
    by destruct (collected ops a0 !! i).
  - rewrite <- (collected_length ops a0).
    apply (f_equal length) in Hsnap. unfold snapshots in Hsnap.
    by rewrite !length_map in Hsnap.
Qed.

(** X2.  Appends, evaluation passes and the relaxation never change the
    configuration [atoms] refers to, nor rebind [atoms]: after any
    operations it is what the steps alone make of the initial one. *)
Theorem only_steps_move_the_live_configuration (a0 : Atoms) (ops : list op) :
  let w := run ops (init a0) in
  atoms w = atoms (init a0)
  ∧ heap w !! atoms w = Some (live_after ops a0).
Proof.
  intros w.
  destruct (run_from ops (init a0) a0 (wf_init a0)) as (Hat & Hlive & _).
  - cbn. by rewrite lookup_singleton_eq.
  - fold w in Hat, Hlive. split; [done|]. by rewrite Hat.
Qed.

Lemma wf_run (a0 : Atoms) (ops : list op) : wf (run ops (init a0)).
Proof. apply run_ok, wf_init. Qed.

Lemma eval_pass_db_values (name : string) (gap : Atoms → float) (w : World) :
  wf w → db_values (eval_pass name gap w).1 = db_values w.
Proof.
  intros [_ Hdb]. unfold db_values, eval_pass. cbn. apply omap_lookup_ext.
  eapply Forall_impl; [done|]. cbn. intros l [Hl _]. by rewrite eval_fold_frame.
Qed.

Lemma read_db_values (w : World) (i : nat) : wf w → read w i = db_values w !! i.
Proof.
  intros [_ Hdb]. rewrite read_snapshots.
  assert (Hs : snapshots w = map Some (db_values w)).
  { unfold snapshots, db_values. induction Hdb as [|l ls [[s Hs] _] _ IH]; [done|].
    cbn. rewrite Hs. cbn. by rewrite IH. }
  rewrite Hs, list_lookup_fmap. by destruct (db_values w !! i).
Qed.

(** X3.  Run on the heap, the evaluation cells return what the comparison
    of values returns on the stored configurations: the loop's copies and
    allocations change neither the snapshots read nor [len(db[0])]. *)
Theorem evaluation_cells_compare_the_snapshots
    (a0 : Atoms) (ops : list op) (name : string) (gap : Atoms → float) :
  let w := run ops (init a0) in
  (evaluation_cells name gap w).2 = Evaluation.evaluation name gap (db_values w)
  ∧ db_values (evaluation_cells name gap w).1 = db_values w.
Proof.
  intros w. pose proof (wf_run a0 ops) as Hw. fold w in Hw.
  destruct (eval_pass_ok name gap w Hw) as [Hw' _].
  unfold evaluation_cells. cbn [fst snd]. split; [|by apply eval_pass_db_values].
  unfold Natoms. rewrite (read_db_values _ _ Hw'), eval_pass_db_values by done.
  rewrite eval_pass_energies by done. fold (db_values w).
  unfold Evaluation.evaluation, Evaluation.Natoms, qm_energies, Evaluation.qm_energies.
  by destruct (db_values w !! 0%nat).
Qed.

(** X4.  An evaluation pass leaves nothing behind that a later pass
    reads: the predictions of a potential are the same whether or not
    another potential was evaluated before it. *)
Theorem evaluation_passes_do_not_interfere
    (a0 : Atoms) (ops : list op) (name1 name2 : string) (gap1 gap2 : Atoms → float) :
  let w := run ops (init a0) in
  (eval_pass name2 gap2 (eval_pass name1 gap1 w).1).2 = (eval_pass name2 gap2 w).2.
Proof.
  intros w. pose proof (wf_run a0 ops) as Hw. fold w in Hw.
  destruct (eval_pass_ok name1 gap1 w Hw) as [Hw' _].
  rewrite !eval_pass_energies by done.
  fold (db_values (eval_pass name1 gap1 w).1). fold (db_values w).
  by rewrite eval_pass_db_values.
Qed.

Lemma collected_keep_len (ops : list op) (a : Atoms) (n : Z) :
  Forall keeps_len ops → len a = n → Forall (λ s, len s = n) (collected ops a).
Proof.
  intros Hops. revert a. induction Hops as [|o ops Ho _ IH]; intros a Ha; [constructor|].
  destruct o; cbn.
  - apply IH. by rewrite Ho.
  - constructor; [done|by apply IH].
  - by apply IH.
  - by apply IH.
Qed.

(** X5.  When no step adds or removes an atom, every stored snapshot has
    the atom count of the initial configuration, so dividing by
    [len(db[0])] gives each snapshot's energy per atom of its own. *)
Theorem collected_database_is_normalised_exactly
    (a0 : Atoms) (ops : list op) (name : string) (gap : Atoms → float) :
  Forall keeps_len ops →
  let dbv := db_values (run ops (init a0)) in
  Forall (λ s, len s = len a0) dbv
  ∧ match dbv with
    | [] => Evaluation.normalised name gap dbv = inl "IndexError"
    | _ :: _ =>
        Evaluation.normalised name gap dbv =
          inr (map (Evaluation.own_per_atom energy) dbv,
               map (Evaluation.own_per_atom (Evaluation.predict name gap)) dbv)
    end.
Proof.
  intros Hops dbv. unfold dbv. rewrite run_db_values.
  pose proof (collected_keep_len ops a0 (len a0) Hops eq_refl) as Hall.
  split; [done|].
  pose proof (EvaluationFacts.normalised_cases name gap (collected ops a0)) as Hc.
  destruct (collected ops a0) as [|first rest]; [done|]. rewrite Hc.
  apply Forall_cons in Hall as Hfirst. destruct Hfirst as [Hfirst _].
  do 2 f_equal.
  - apply map_ext_Forall. eapply Forall_impl; [done|]. cbn. intros s Hs.
    unfold Evaluation.own_per_atom. by rewrite Hfirst, Hs.
  - apply map_ext_Forall. eapply Forall_impl; [done|]. cbn. intros s Hs.
    unfold Evaluation.own_per_atom. by rewrite Hfirst, Hs.
Qed.

Lemma moved_keeps_len : keeps_len (Step moved).
Proof. intros a. unfold len, moved. cbn. by rewrite length_map. Qed.

(** The witness of X5: two appends, a step before each. *)
Lemma collected_database_is_normalised_exactly_witness :
  let dbv := db_values (run [Step moved; Collect; Step moved; Collect] (init at_origin)) in
  Forall (λ s, len s = len at_origin) dbv
  ∧ match dbv with
    | [] => Evaluation.normalised "gap2b" energy dbv = inl "IndexError"
    | _ :: _ =>
        Evaluation.normalised "gap2b" energy dbv =
          inr (map (Evaluation.own_per_atom energy) dbv,
               map (Evaluation.own_per_atom (Evaluation.predict "gap2b" energy)) dbv)
    end.
Proof.
  apply (collected_database_is_normalised_exactly at_origin
           [Step moved; Collect; Step moved; Collect] "gap2b" energy).
  repeat constructor; apply moved_keeps_len.
Defined.

End CellsFacts.

(** ** More on the RMSE *)

Module RmseFacts.
Import Py Float64 Config Evaluation Float64Arith.

Lemma squared_errors_swap (a b : list float) : squared_errors a b = squared_errors b a.
Proof.
  unfold squared_errors. revert b.
  induction a as [|x a IH]; intros [|y b]; cbn; [done..|].
  by rewrite IH, square_of_difference.
Qed.

(** X6.  The RMSE expression does not tell the reference from the
    prediction: on two sequences of one length it returns the same float,
    or raises the same exception, with its arguments exchanged. *)
Theorem rmse_is_symmetric (qm gp : list float) (n : Z) :
  length qm = length gp → rmse qm gp n = rmse gp qm n.
Proof.
  intros Hlen.
  rewrite (EvaluationFacts.rmse_equal_length qm gp n Hlen).
  rewrite (EvaluationFacts.rmse_equal_length gp qm n (eq_sym Hlen)).
  destruct qm as [|q qm], gp as [|g gp]; try discriminate; [done|].
  unfold per_atom_rmse, rms_error. by rewrite squared_errors_swap.
Qed.

(** The witness of X6. *)
Lemma rmse_is_symmetric_witness :
  rmse [-8; -6]%float [-7; -6.5]%float 2 = rmse [-7; -6.5]%float [-8; -6]%float 2.
Proof. apply (rmse_is_symmetric [-8; -6]%float [-7; -6.5]%float 2). reflexivity. Defined.

Section WithOracle.

Variable name : string.
Variable gap : Atoms → float.

(** X7.  A number the evaluation cells return is never below zero: it is
    zero, positive, or nan. *)
Theorem evaluation_is_never_negative (db : list Atoms) (v : float) :
  evaluation name gap db = inr v → PrimFloat.ltb v 0 = false.
Proof.
  unfold evaluation. destruct (Natoms db) as [e|n]; [done|]. cbn [bind].
  unfold rmse.
  destruct (Numpy.div_len _ _) as [e|s]; [done|]. cbn [bind ret].
  intros [= <-]. apply sqrt_not_negative.
Qed.

Lemma fold_add_zeros (xs : list float) :
  Forall (λ x, x = 0%float) xs → fold_left PrimFloat.add xs 0%float = 0%float.
Proof. induction 1 as [|x xs -> _ IH]; [done|]. cbn. apply IH. Qed.

Lemma squared_errors_diag (xs : list float) :
  Forall (λ x, PrimFloat.is_finite x = true) xs →
  Forall (λ x, x = 0%float) (squared_errors xs xs).
Proof.
  induction 1 as [|x xs Hx _ IH]; [constructor|].
  unfold squared_errors. cbn. constructor; [|apply IH].
  by rewrite (sub_diag_finite x Hx).
Qed.

(** X8.  A potential that returns, for every snapshot, the energy stored
    in it has an RMSE of exactly zero, provided the per-atom energies are
    finite and the database is not empty. *)
Theorem exact_potential_has_zero_rmse (first : Atoms) (rest : list Atoms) :
  let db := first :: rest in
  Forall (λ s, predict name gap s = energy s) db →
  Forall (λ s, PrimFloat.is_finite (per_atom (len first) (energy s)) = true) db →
  PrimFloat.ltb 0 (of_Z (Z.of_nat (length db))) = true →
  evaluation name gap db = inr 0%float.
Proof.
  intros db Hexact Hfinite Hlen.
  assert (Hgp : gap_energies name gap db = qm_energies db).
  { unfold gap_energies, qm_energies. by apply map_ext_Forall. }
  unfold evaluation. cbn [Natoms db lookup list_lookup bind ret]. rewrite Hgp.
  rewrite EvaluationFacts.rmse_equal_length by done.
  assert (Hne : ∃ q qs, qm_energies db = q :: qs) by (by eexists _, _).
  destruct Hne as (q & qs & Hq). rewrite Hq, <- Hq. f_equal.
  unfold per_atom_rmse, rms_error, mean.
  rewrite EvaluationFacts.squared_errors_length by done.
  unfold qm_energies. rewrite !length_map.
  rewrite fold_add_zeros.
  - by rewrite div_zero_positive.
  - apply squared_errors_diag. rewrite map_map. by apply Forall_map.
Qed.

End WithOracle.

(** The witness of X7: two snapshots, predicted 1 too high each. *)
Lemma evaluation_is_never_negative_witness :
  evaluation "gap2b" (λ s, energy s + 1)%float [snapshot 2 (-8); snapshot 2 (-6)]
    = inr 0.5%float
  ∧ PrimFloat.ltb 0.5 0 = false.
Proof.
  assert (H : evaluation "gap2b" (λ s, energy s + 1)%float
                [snapshot 2 (-8); snapshot 2 (-6)] = inr 0.5%float)
    by (vm_compute; reflexivity).
  split; [exact H|].
  exact (evaluation_is_never_negative "gap2b" (λ s, energy s + 1)%float
           [snapshot 2 (-8); snapshot 2 (-6)] 0.5%float H).
Defined.

(** The witness of X8: the stored energies as the prediction. *)
Lemma exact_potential_has_zero_rmse_witness :
  evaluation "gap2b" energy [snapshot 2 (-8); snapshot 2 (-6)] = inr 0%float.
Proof.
  apply (exact_potential_has_zero_rmse "gap2b" energy (snapshot 2 (-8)) [snapshot 2 (-6)]).
  - repeat constructor.
  - repeat constructor.
  - reflexivity.
Defined.

End RmseFacts.

(** ** More on the structure builder *)

Module BottomLayerFacts.
Import Py Float64 Config StructureBuilder NumpyFacts Float64Arith.

Section Builder.

Variable Diamond : string → float → Z * Z * Z → result Atoms.
Variable stretch_cell : cell_t → float → cell_t.

(** X9.  The constraint is never empty on finite coordinates: in a
    configuration the builder returns, some atom is fixed, namely every
    atom whose z is the bottom. *)
Theorem some_atom_is_fixed (size : Z * Z * Z) (vacuum : float) (slab : Atoms) :
  build_slab Diamond stretch_cell size vacuum = inr slab →
  Forall (λ p, PrimFloat.is_finite (zcoord p) = true) (positions slab) →
  ∃ (i : nat) (p : vec3),
    positions slab !! i = Some p
    ∧ Numpy.min (map zcoord (positions slab)) = inr (zcoord p)
    ∧ fixed slab !! i = Some true.
Proof.
  intros Hslab Hfin.
  destruct (StructureBuilderFacts.build_slab_returns _ _ _ _ _ Hslab)
    as (lattice & bottom & _ & Hb & ->).
  cbn [positions fixed] in *.
  pose proof (min_spec (map zcoord (positions lattice))) as Hmin. rewrite Hb in Hmin.
  destruct Hmin as [Hin _].
  apply list_elem_of_lookup in Hin as [i Hi].
  rewrite list_lookup_fmap in Hi.
  destruct (positions lattice !! i) as [p|] eqn:Hp; [|done].
  injection Hi as Hz. exists i, p. split; [done|]. split; [by rewrite Hz|].
  rewrite !list_lookup_fmap, Hp. cbn. rewrite Hz. unfold in_bottom_layer.
  rewrite sub_diag_finite; [done|].
  rewrite Forall_forall in Hfin. rewrite <- Hz. apply Hfin.
  by eapply list_elem_of_lookup_2.
Qed.

End Builder.

(** The witness of X9: the default slab. *)
Lemma some_atom_is_fixed_witness :
  ∃ (i : nat) (p : vec3),
    positions TutorialSlab.slab !! i = Some p
    ∧ Numpy.min (map zcoord (positions TutorialSlab.slab)) = inr (zcoord p)
    ∧ fixed TutorialSlab.slab !! i = Some true.
Proof.
  apply (some_atom_is_fixed Toolkit.Diamond Toolkit.stretch_cell
           (1, 2, 2)%Z 10.0%float TutorialSlab.slab).
  - vm_compute. reflexivity.
  - vm_compute. repeat constructor.
Defined.

End BottomLayerFacts.

(** ** The descriptors of the three fits *)

Module FitterSpecsFacts.
Import Fitter FitterSpecs.
Local Open Scope string_scope.

(** X10.  The three fits are nested: all train on [tmp.xyz]; the first is
    given the first descriptor of the last fit, the second its first two,
    the third all three (two-body, three-body, SOAP), with the same
    settings each time. *)
Theorem fits_are_nested (E0 : float) :
  Forall (λ i, param "at_file" i = Some "tmp.xyz") (fits E0)
  ∧ (∃ full : list (list string),
       last (map descriptors (fits E0)) = Some full
       ∧ map descriptors (fits E0) = [take 1 full; take 2 full; full]
       ∧ map head full = [Some "distance_Nb"; Some "distance_Nb"; Some "soap"]
       ∧ map (λ d, bool_decide ("order=2" ∈ d)) full = [true; false; false]
       ∧ map (λ d, bool_decide ("order=3" ∈ d)) full = [false; true; false]).
Proof.
  split; [vm_compute; repeat constructor|].
  eexists. split; [vm_compute; reflexivity|].
  repeat split; vm_compute; reflexivity.
Qed.

End FitterSpecsFacts.

(** ** The dimer curves *)

Module DimersFacts.
Import Py Float64 Config Store Dimers StoreFacts.

(** The curve loop over distinct, allocated dimers: one energy per dimer,
    each dimer left evaluated, every other object left alone. *)
Lemma curve_fold (name : string) (gap : Atoms → float)
    (ds : list ref) (objs : list Atoms) (h : gmap ref Atoms) (es : list float) :
  NoDup ds →
  objects h ds = map Some objs →
  let r := fold_left (curve_one name gap) ds (h, es) in
  r.2 = es ++ map (λ a, gap (set_calculator name a)) objs
  ∧ objects r.1 ds = map Some (map (evaluated name gap) objs)
  ∧ (∀ l, l ∉ ds → r.1 !! l = h !! l).
Proof.
  intros Hnd. revert objs h es.
  induction Hnd as [|d ds Hd Hnd IH]; intros objs h es Hobjs; cbn zeta.
  - destruct objs; [|done]. cbn. by rewrite app_nil_r.
  - destruct objs as [|a objs]; [done|]. cbn in Hobjs. injection Hobjs as Ha Hobjs.
    assert (Hstep : curve_one name gap (h, es) d =
              (<[d := evaluated name gap a]> h, es ++ [gap (set_calculator name a)])).
    { unfold curve_one. cbn [fst snd]. by rewrite Ha. }
    cbn [fold_left]. rewrite Hstep.
    destruct (IH objs (<[d := evaluated name gap a]> h) (es ++ [gap (set_calculator name a)]))
      as (Hes & Hleft & Hother).
    { rewrite <- Hobjs. unfold objects. apply map_ext_Forall, Forall_forall.
      intros l Hl. rewrite lookup_insert_ne; [done|]. by intros ->. }
    split; [by rewrite Hes, <- app_assoc|]. split.
    + unfold objects in *. cbn [map]. rewrite Hother by done.
      rewrite lookup_insert_eq. f_equal. apply Hleft.
    + intros l Hl. apply not_elem_of_cons in Hl as [Hne Hl].
      rewrite Hother by done. by rewrite lookup_insert_ne.
Qed.

(** Building the dimers allocates one new object per separation. *)
Lemma build_fold (xs : list float) (st : gmap ref Atoms * list ref) :
  let r := fold_left build_one xs st in
  (∀ l, is_Some (st.1 !! l) → r.1 !! l = st.1 !! l)
  ∧ ∃ ds, r.2 = st.2 ++ ds
      ∧ NoDup ds
      ∧ Forall (λ l, st.1 !! l = None) ds
      ∧ objects r.1 ds = map Some (map dimer xs).
Proof.
  revert st. induction xs as [|x xs IH]; intros st; cbn zeta.
  - cbn. split; [done|]. exists []. rewrite app_nil_r. repeat split; constructor.
  - cbn [fold_left].
    destruct (IH (build_one st x)) as (Hold & ds & Hds & Hnd & Hnew & Hobjs).
    cbn [build_one fst snd] in *.
    assert (Hl0 : new_ref st.1 ∉ ds).
    { intros Hin. rewrite Forall_forall in Hnew. specialize (Hnew _ Hin).
      by rewrite lookup_insert_eq in Hnew. }
    split.
    + intros l Hl. rewrite Hold; rewrite lookup_alloc; done.
    + exists (new_ref st.1 :: ds). split; [by rewrite Hds, <- app_assoc|].
      split; [by constructor|]. split.
      * constructor; [apply new_ref_fresh|].
        eapply Forall_impl; [done|]. cbn. intros l Hl.
        destruct (decide (l = new_ref st.1)) as [->|Hne]; [apply new_ref_fresh|].
        by rewrite lookup_insert_ne in Hl.
      * unfold objects in *. cbn [map]. rewrite Hobjs. f_equal.
        rewrite Hold; rewrite lookup_insert_eq; [done|by eexists].
Qed.

(** X11.  The dimers are new objects, one per separation, and the curve
    loops update them in place: the first curve is the first potential's
    energy of each dimer as built, in order; the second curve is the
    second potential's energy of each dimer as the first loop left it;
    the abscissae read back from the dimers afterwards are the
    separations they were built from; and every object that existed
    before (the database, the live configuration) is as it was. *)
Theorem dimer_loops_update_in_place
    (xs : list float) (h0 : gmap ref Atoms)
    (name1 name2 : string) (gap1 gap2 : Atoms → float) :
  let dimers := build xs h0 in
  let first := curve name1 gap1 dimers.1 dimers.2 in
  let second := curve name2 gap2 first.1 dimers.2 in
  first.2 = map (λ x, gap1 (set_calculator name1 (dimer x))) xs
  ∧ second.2 = map (λ x, gap2 (set_calculator name2 (evaluated name1 gap1 (dimer x)))) xs
  ∧ separations second.1 dimers.2 = map Some xs
  ∧ ∀ l, is_Some (h0 !! l) → second.1 !! l = h0 !! l.
Proof.
  intros dimers first second.
  destruct (build_fold xs (h0, [])) as (Hold & ds & Hds & Hnd & Hnew & Hobjs).
  cbn [fst snd app] in *. fold (build xs h0) in Hold, Hds, Hobjs. fold dimers in Hold, Hds, Hobjs.
  rewrite <- Hds in *. clear Hds ds.
  destruct (curve_fold name1 gap1 dimers.2 _ dimers.1 [] Hnd Hobjs) as (He1 & Hobj1 & Ho1).
  fold (curve name1 gap1 dimers.1 dimers.2) in He1, Hobj1, Ho1.
  fold first in He1, Hobj1, Ho1.
  destruct (curve_fold name2 gap2 dimers.2 _ first.1 [] Hnd Hobj1) as (He2 & Hobj2 & Ho2).
  fold (curve name2 gap2 first.1 dimers.2) in He2, Hobj2, Ho2.
  fold second in He2, Hobj2, Ho2.
  split; [by rewrite He1, map_map|]. split; [by rewrite He2, !map_map|]. split.
  - transitivity (map (λ o : option Atoms, o ≫= separation) (objects second.1 dimers.2)).
    { unfold separations, objects. by rewrite map_map. }
    rewrite Hobj2, !map_map. done.
  - intros l [a Ha].
    assert (Hl : l ∉ dimers.2).
    { intros Hin. rewrite Forall_forall in Hnew. by rewrite (Hnew l Hin) in Ha. }
    rewrite Ho2, Ho1, Hold by eauto. done.
Qed.

End DimersFacts.
